(** * A shallow embedding of the block device, page cache and VFS file layer

    The development follows the C++ sources of the filesystem stack:

    - [include/types.h]           : integer widths, [ErrorCode], [Result]
    - [src/block/block_device.cpp]: [MemoryBlockDevice]
    - [include/page_cache.h], [src/cache/page_cache.cpp] : [Page], [PageCache]
    - [include/vfs.h], [src/vfs/inode.cpp], [src/vfs/file.cpp] : [Inode], [File]

    Objects held through [SharedPtr] (pages, inodes, devices) live in stores
    indexed by handles, so that aliasing is explicit: the cache index, the LRU
    list, the dirty list and a caller all name the same page by its handle.
    Machine integers are [Z] with the wrap-around written out.  An operation
    is first embedded as one thread runs it to completion; [read_page] and
    [sync_pages] are also embedded operation by operation, so that the
    operations of two threads can be interleaved. *)

From Stdlib Require Import ZArith List Lia Bool.
From stdpp Require Import gmap list.

Local Open Scope Z_scope.

(** ** types.h *)

Definition wrap32 (x : Z) : Z := x mod 2 ^ 32.
Definition wrap64 (x : Z) : Z := x mod 2 ^ 64.

(** [static constexpr u32 PAGE_SIZE = 4096] *)
Definition PAGE_SIZE : Z := 4096.

(** [~(PAGE_SIZE - 1)]: the complement is taken at the type of [PAGE_SIZE],
    which is [u32], and is then zero-extended when it meets a 64-bit operand. *)
Definition PAGE_MASK : Z := wrap32 (Z.lnot (PAGE_SIZE - 1)).

Inductive ErrorCode : Type :=
| SUCCESS | FS_ENOENT | FS_EIO | FS_ENOMEM | FS_EACCES | FS_EEXIST
| FS_ENOTDIR | FS_EISDIR | FS_EINVAL | FS_ENOSPC | FS_EROFS.

Inductive Result (A : Type) : Type :=
| Ok (value : A)
| Err (error : ErrorCode).
Arguments Ok {A} value.
Arguments Err {A} error.

Definition is_ok {A} (r : Result A) : bool :=
  match r with Ok _ => true | Err _ => false end.

(** [FileMode::is_writable]: [mode & 0200] *)
Definition is_writable (mode : Z) : bool := negb (Z.land mode 128 =? 0).

(** ** Byte buffers

    A buffer is a list of bytes (each a [Z] in [0, 256)).  [memcpy dst off src]
    is [std::memcpy(dst + off, src, |src|)]. *)

Definition memcpy (dst : list Z) (off : nat) (src : list Z) : list Z :=
  take off dst ++ src ++ drop (off + length src)%nat dst.

Definition slice (src : list Z) (off len : nat) : list Z :=
  take len (drop off src).

(** ** block_device.cpp : MemoryBlockDevice *)

Record MemoryBlockDevice : Type := mkMemoryBlockDevice {
  dev_data_ : list Z;      (* [data_], the backing bytes *)
  sector_size_ : Z;
  block_size_ : Z;
  readonly_ : bool
}.

Definition get_size (d : MemoryBlockDevice) : Z := Z.of_nat (length (dev_data_ d)).

Definition set_dev_data (d : MemoryBlockDevice) (bytes : list Z) : MemoryBlockDevice :=
  mkMemoryBlockDevice bytes (sector_size_ d) (block_size_ d) (readonly_ d).

(** [MemoryBlockDevice::read]: the result and the bytes copied into the
    caller's buffer (none on error). *)
Definition MemoryBlockDevice_read (d : MemoryBlockDevice) (sector size : Z)
  : Result Z * list Z :=
  let offset := wrap64 (sector * sector_size_ d) in
  if get_size d <=? offset then (Err FS_EINVAL, [])
  else
    let actual_size := Z.min size (get_size d - offset) in
    (Ok actual_size, slice (dev_data_ d) (Z.to_nat offset) (Z.to_nat actual_size)).

(** [MemoryBlockDevice::write]: the result and the device afterwards.  The
    caller's [buffer] holds at least [size] bytes. *)
Definition MemoryBlockDevice_write (d : MemoryBlockDevice) (sector : Z)
  (buffer : list Z) (size : Z) : Result Z * MemoryBlockDevice :=
  if readonly_ d then (Err FS_EROFS, d)
  else
    let offset := wrap64 (sector * sector_size_ d) in
    if get_size d <=? offset then (Err FS_EINVAL, d)
    else
      let actual_size := Z.min size (get_size d - offset) in
      (Ok actual_size,
       set_dev_data d
         (memcpy (dev_data_ d) (Z.to_nat offset) (take (Z.to_nat actual_size) buffer))).

(** ** page_cache.h : pages *)

Inductive PageState : Type :=
| CLEAN | DIRTY | LOCKED | ERROR | UPTODATE | WRITEBACK.

Global Instance PageState_eq_dec : EqDecision PageState.
Proof. solve_decision. Defined.

(** Handles of the three stores. *)
Abbreviation page_id := nat (only parsing).
Abbreviation inode_id := nat (only parsing).
Abbreviation device_id := nat (only parsing).

Record Page : Type := mkPage {
  data_ : list Z;
  offset_ : Z;
  inode_ : inode_id;
  ref_count_ : Z;          (* [std::atomic<u32>] *)
  state_ : PageState;
  in_lru_ : bool
}.

(** [Page::Page]: reference count 1, state CLEAN, not yet in the LRU list, and
    a buffer of [PAGE_SIZE] bytes cleared by [memset]. *)
Definition Page_new (offset : Z) (inode : inode_id) : Page :=
  mkPage (repeat 0 (Z.to_nat PAGE_SIZE)) offset inode 1 CLEAN false.

Global Instance Page_inhabited : Inhabited Page := populate (Page_new 0 0%nat).

Definition Page_set_data (bytes : list Z) (pg : Page) : Page :=
  mkPage bytes (offset_ pg) (inode_ pg) (ref_count_ pg) (state_ pg) (in_lru_ pg).
Definition Page_set_ref_count (n : Z) (pg : Page) : Page :=
  mkPage (data_ pg) (offset_ pg) (inode_ pg) n (state_ pg) (in_lru_ pg).
Definition Page_set_state (s : PageState) (pg : Page) : Page :=
  mkPage (data_ pg) (offset_ pg) (inode_ pg) (ref_count_ pg) s (in_lru_ pg).
Definition Page_set_in_lru (b : bool) (pg : Page) : Page :=
  mkPage (data_ pg) (offset_ pg) (inode_ pg) (ref_count_ pg) (state_ pg) b.

(** [PageKey]: inode identity and offset. *)
Abbreviation PageKey := (inode_id * Z)%type (only parsing).

Record PageCache : Type := mkPageCache {
  pages_ : gmap (inode_id * Z) page_id;
  lru_list_ : list page_id;        (* most recently used at the front *)
  dirty_list_ : list page_id;
  max_pages_ : Z;
  current_pages_ : Z;              (* [size_t] *)
  hits_ : Z;
  misses_ : Z;
  evictions_ : Z;
  writebacks_ : Z
}.

(** [PageCache::PageCache(max_pages)] *)
Definition PageCache_new (max_pages : Z) : PageCache :=
  mkPageCache ∅ [] [] max_pages 0 0 0 0 0.

(** ** vfs.h : inodes and files *)

Record FileAttribute : Type := mkFileAttribute {
  attr_mode : Z;          (* [mode.mode], a [u16] *)
  attr_size : Z;          (* [size], a [u64] *)
  attr_atime : Z;
  attr_mtime : Z;
  attr_ctime : Z
}.

Record Inode : Type := mkInode {
  ino_ : Z;
  sb_device_ : option device_id;   (* [sb_->get_device()], possibly null *)
  ops_ : bool;                     (* whether [ops_] is non-null *)
  attr_ : FileAttribute
}.

Definition Inode_set_attr (a : FileAttribute) (i : Inode) : Inode :=
  mkInode (ino_ i) (sb_device_ i) (ops_ i) a.

Record File : Type := mkFile {
  dentry_inode_ : option inode_id; (* [dentry_->get_inode()], possibly null *)
  flags_ : Z;
  pos_ : Z
}.

(** ** The global state: [g_page_cache] and the three object stores *)

Record World : Type := mkWorld {
  g_page_cache : PageCache;
  heap : gmap page_id Page;
  next_page : page_id;             (* the handle [make_shared<Page>] returns next *)
  inodes : gmap inode_id Inode;
  devices : gmap device_id MemoryBlockDevice
}.

Definition set_cache (c : PageCache) (w : World) : World :=
  mkWorld c (heap w) (next_page w) (inodes w) (devices w).
Definition set_heap (h : gmap page_id Page) (w : World) : World :=
  mkWorld (g_page_cache w) h (next_page w) (inodes w) (devices w).
Definition set_inodes (m : gmap inode_id Inode) (w : World) : World :=
  mkWorld (g_page_cache w) (heap w) (next_page w) m (devices w).
Definition set_devices (m : gmap device_id MemoryBlockDevice) (w : World) : World :=
  mkWorld (g_page_cache w) (heap w) (next_page w) (inodes w) m.

Definition page (w : World) (p : page_id) : Page := heap w !!! p.

Definition update_page (f : Page -> Page) (p : page_id) (w : World) : World :=
  set_heap (<[p := f (page w p)]> (heap w)) w.

(** Inline accessors of [Page]. *)
Definition get_state (w : World) (p : page_id) : PageState := state_ (page w p).
Definition set_state (p : page_id) (s : PageState) (w : World) : World :=
  update_page (Page_set_state s) p w.
Definition is_dirty (w : World) (p : page_id) : bool :=
  bool_decide (get_state w p = DIRTY).
Definition is_uptodate (w : World) (p : page_id) : bool :=
  bool_decide (get_state w p = UPTODATE).
Definition ref_count (w : World) (p : page_id) : Z := ref_count_ (page w p).

Global Instance Inode_inhabited : Inhabited Inode :=
  populate (mkInode 0 None false (mkFileAttribute 0 0 0 0 0)).
Global Instance MemoryBlockDevice_inhabited : Inhabited MemoryBlockDevice :=
  populate (mkMemoryBlockDevice [] 512 4096 false).

(** A handle always names a live object: a [SharedPtr] keeps it alive. *)
Definition inode (w : World) (i : inode_id) : Inode := inodes w !!! i.
Definition device (w : World) (d : device_id) : MemoryBlockDevice := devices w !!! d.

(** [Inode::get_block_device]: [sb_->get_device()]. *)
Definition get_block_device (w : World) (i : inode_id) : option device_id :=
  sb_device_ (inode w i).

(** [block_device->write(...)] on the device behind a handle. *)
Definition device_write (d : device_id) (sector : Z) (buffer : list Z) (size : Z)
  (w : World) : Result Z * World :=
  let '(r, dev) := MemoryBlockDevice_write (device w d) sector buffer size in
  (r, set_devices (<[d := dev]> (devices w)) w).

(** ** page_cache.cpp : the private list operations of the cache *)

Definition set_lru_list (l : list page_id) (c : PageCache) : PageCache :=
  mkPageCache (pages_ c) l (dirty_list_ c) (max_pages_ c) (current_pages_ c)
    (hits_ c) (misses_ c) (evictions_ c) (writebacks_ c).
Definition set_dirty_list (l : list page_id) (c : PageCache) : PageCache :=
  mkPageCache (pages_ c) (lru_list_ c) l (max_pages_ c) (current_pages_ c)
    (hits_ c) (misses_ c) (evictions_ c) (writebacks_ c).
Definition set_pages (m : gmap (inode_id * Z) page_id) (c : PageCache) : PageCache :=
  mkPageCache m (lru_list_ c) (dirty_list_ c) (max_pages_ c) (current_pages_ c)
    (hits_ c) (misses_ c) (evictions_ c) (writebacks_ c).
Definition set_max (n : Z) (c : PageCache) : PageCache :=
  mkPageCache (pages_ c) (lru_list_ c) (dirty_list_ c) n (current_pages_ c)
    (hits_ c) (misses_ c) (evictions_ c) (writebacks_ c).
Definition set_current_pages (n : Z) (c : PageCache) : PageCache :=
  mkPageCache (pages_ c) (lru_list_ c) (dirty_list_ c) (max_pages_ c) n
    (hits_ c) (misses_ c) (evictions_ c) (writebacks_ c).
Definition incr_hits (c : PageCache) : PageCache :=
  mkPageCache (pages_ c) (lru_list_ c) (dirty_list_ c) (max_pages_ c) (current_pages_ c)
    (wrap64 (hits_ c + 1)) (misses_ c) (evictions_ c) (writebacks_ c).
Definition incr_misses (c : PageCache) : PageCache :=
  mkPageCache (pages_ c) (lru_list_ c) (dirty_list_ c) (max_pages_ c) (current_pages_ c)
    (hits_ c) (wrap64 (misses_ c + 1)) (evictions_ c) (writebacks_ c).
Definition incr_evictions (c : PageCache) : PageCache :=
  mkPageCache (pages_ c) (lru_list_ c) (dirty_list_ c) (max_pages_ c) (current_pages_ c)
    (hits_ c) (misses_ c) (wrap64 (evictions_ c + 1)) (writebacks_ c).
Definition incr_writebacks (c : PageCache) : PageCache :=
  mkPageCache (pages_ c) (lru_list_ c) (dirty_list_ c) (max_pages_ c) (current_pages_ c)
    (hits_ c) (misses_ c) (evictions_ c) (wrap64 (writebacks_ c + 1)).

Definition on_cache (f : PageCache -> PageCache) (w : World) : World :=
  set_cache (f (g_page_cache w)) w.

(** [lru_list_.erase(page->lru_iter_)]: a page sits in at most one slot of the
    LRU list, the one its iterator names. *)
Fixpoint list_erase (p : page_id) (l : list page_id) : list page_id :=
  match l with
  | [] => []
  | q :: l' => if decide (q = p) then l' else q :: list_erase p l'
  end.

(** [std::list::remove]: every element equal to [p] goes. *)
Definition list_remove (p : page_id) (l : list page_id) : list page_id :=
  filter (fun q => q ≠ p) l.

Definition PageCache_update_lru (p : page_id) (w : World) : World :=
  if in_lru_ (page w p)
  then on_cache (fun c => set_lru_list (p :: list_erase p (lru_list_ c)) c) w
  else w.

Definition PageCache_remove_from_lru (p : page_id) (w : World) : World :=
  if in_lru_ (page w p)
  then update_page (Page_set_in_lru false) p
         (on_cache (fun c => set_lru_list (list_erase p (lru_list_ c)) c) w)
  else w.

Definition PageCache_add_to_dirty_list (p : page_id) (w : World) : World :=
  on_cache (fun c => set_dirty_list (dirty_list_ c ++ [p]) c) w.

Definition PageCache_remove_from_dirty_list (p : page_id) (w : World) : World :=
  on_cache (fun c => set_dirty_list (list_remove p (dirty_list_ c)) c) w.

(** [PageCache::release_page] *)
Definition PageCache_release_page (p : page_id) (w : World) : World :=
  if 0 <? ref_count w p then w
  else
    let key : PageKey := (inode_ (page w p), offset_ (page w p)) in
    let w1 := on_cache (fun c => set_pages (delete key (pages_ c)) c) w in
    let w2 := PageCache_remove_from_lru p w1 in
    let w3 := if is_dirty w2 p then PageCache_remove_from_dirty_list p w2 else w2 in
    on_cache (fun c => set_current_pages (wrap64 (current_pages_ c - 1)) c) w3.

(** ** page_cache.cpp : Page *)

(** [Page::put] *)
Definition Page_put (p : page_id) (w : World) : World :=
  let n := wrap32 (ref_count w p - 1) in
  let w1 := update_page (Page_set_ref_count n) p w in
  if n =? 0 then PageCache_release_page p w1 else w1.

(** [Page::get] *)
Definition Page_get (p : page_id) (w : World) : World :=
  update_page (Page_set_ref_count (wrap32 (ref_count w p + 1))) p w.

(** [Page::lock].  The wait returns once the state is not LOCKED.  [None]: the
    page is LOCKED and the caller waits; with a single thread nobody else can
    change the state, and the call never returns. *)
Definition Page_lock (p : page_id) (w : World) : option World :=
  if decide (get_state w p = LOCKED) then None
  else Some (set_state p LOCKED w).

(** [Page::unlock] *)
Definition Page_unlock (p : page_id) (w : World) : World :=
  if decide (get_state w p = LOCKED) then set_state p UPTODATE w else w.

(** [Page::mark_dirty] *)
Definition Page_mark_dirty (p : page_id) (w : World) : World :=
  let old_state := get_state w p in
  if decide (old_state ≠ DIRTY ∧ old_state ≠ WRITEBACK)
  then PageCache_add_to_dirty_list p (set_state p DIRTY w)
  else w.

(** [Page::clear_dirty] *)
Definition Page_clear_dirty (p : page_id) (w : World) : World :=
  if decide (get_state w p = DIRTY)
  then PageCache_remove_from_dirty_list p (set_state p UPTODATE w)
  else w.

(** ** page_cache.cpp : PageCache *)

(** [PageCache::find_page_locked] *)
Definition PageCache_find_page_locked (key : PageKey) (w : World)
  : option page_id * World :=
  match pages_ (g_page_cache w) !! key with
  | Some p => (Some p, on_cache incr_hits (PageCache_update_lru p w))
  | None => (None, on_cache incr_misses w)
  end.

(** [PageCache::find_page]: the same probe, under the cache mutex. *)
Definition PageCache_find_page (inode : inode_id) (offset : Z) (w : World)
  : option page_id * World :=
  PageCache_find_page_locked (inode, offset) w.

(** The part of the body of the loop of [evict_pages] that evicts the victim
    [p]: write-back when dirty, then unlinking from the index and the LRU
    list.  The sector is [offset / sector_size] ([sector_size] is not 0). *)
Definition evict_victim (p : page_id) (w : World) : World :=
  let w1 :=
    if is_dirty w p then
      match get_block_device w (inode_ (page w p)) with
      | Some d =>
          let sector := offset_ (page w p) / sector_size_ (device w d) in
          let '(_, w') := device_write d sector (data_ (page w p)) PAGE_SIZE w in
          on_cache incr_writebacks (Page_clear_dirty p w')
      | None => w
      end
    else w in
  let key : PageKey := (inode_ (page w1 p), offset_ (page w1 p)) in
  let w2 := on_cache (fun c => set_pages (delete key (pages_ c)) c) w1 in
  let w3 := PageCache_remove_from_lru p w2 in
  on_cache (fun c => incr_evictions (set_current_pages (wrap64 (current_pages_ c - 1)) c)) w3.

(** The loop of [evict_pages], with [evicted] as loop variable.  One unit of
    fuel is one evaluation of the loop condition; [None] is fuel exhausted.
    [last] is [lru_list_.back()], and is [None] exactly on the empty list. *)
Fixpoint evict_loop (fuel : nat) (count evicted : Z) (w : World) : option World :=
  match fuel with
  | O => None
  | S fuel' =>
      if evicted <? count then
        match last (lru_list_ (g_page_cache w)) with
        | None => Some w
        | Some p =>
            if 1 <? ref_count w p then
              evict_loop fuel' count evicted
                (on_cache (fun c => set_lru_list (p :: removelast (lru_list_ c)) c) w)
            else
              evict_loop fuel' count (evicted + 1) (evict_victim p w)
        end
      else Some w
  end.

(** [PageCache::evict_pages] *)
Definition PageCache_evict_pages (fuel : nat) (count : Z) (w : World) : option World :=
  evict_loop fuel count 0 w.

(** The rest of [allocate_page], after the eviction. *)
Definition install_page (key : PageKey) (w : World) : page_id * World :=
  let p := next_page w in
  let w1 := mkWorld (g_page_cache w)
              (<[p := Page_set_in_lru true (Page_new key.2 key.1)]> (heap w))
              (S p) (inodes w) (devices w) in
  (p, on_cache (fun c =>
         set_current_pages (wrap64 (current_pages_ c + 1))
           (set_lru_list (p :: lru_list_ c) (set_pages (<[key := p]> (pages_ c)) c))) w1).

(** [PageCache::allocate_page] *)
Definition PageCache_allocate_page (fuel : nat) (key : PageKey) (w : World)
  : option (page_id * World) :=
  if max_pages_ (g_page_cache w) <=? current_pages_ (g_page_cache w) then
    match PageCache_evict_pages fuel 1 w with
    | Some w1 => Some (install_page key w1)
    | None => None
    end
  else Some (install_page key w).

(** [PageCache::find_or_create_page] *)
Definition PageCache_find_or_create_page (fuel : nat) (inode : inode_id) (offset : Z)
  (w : World) : option (page_id * World) :=
  let key : PageKey := (inode, offset) in
  match PageCache_find_page_locked key w with
  | (Some p, w1) => Some (p, w1)
  | (None, w1) => PageCache_allocate_page fuel key w1
  end.

(** [PageCache::read_page].  [None]: the call does not return. *)
Definition PageCache_read_page (fuel : nat) (inode : inode_id) (offset : Z) (w : World)
  : option (Result page_id * World) :=
  match PageCache_find_or_create_page fuel inode offset w with
  | None => None
  | Some (p, w1) =>
      if is_uptodate w1 p then Some (Ok p, w1)
      else
        match Page_lock p w1 with
        | None => None
        | Some w2 =>
            if is_uptodate w2 p then Some (Ok p, Page_unlock p w2)
            else
              match get_block_device w2 inode with
              | None => Some (Err FS_EIO, Page_unlock p w2)
              | Some d =>
                  let sector := offset / sector_size_ (device w2 d) in
                  let '(result, bytes) :=
                    MemoryBlockDevice_read (device w2 d) sector PAGE_SIZE in
                  let w3 :=
                    update_page (Page_set_data (memcpy (data_ (page w2 p)) 0 bytes)) p w2 in
                  match result with
                  | Err e => Some (Err e, Page_unlock p (set_state p ERROR w3))
                  | Ok _ => Some (Ok p, Page_unlock p (set_state p UPTODATE w3))
                  end
              end
        end
  end.

(** [PageCache::write_page] *)
Definition PageCache_write_page (p : page_id) (w : World) : World :=
  PageCache_update_lru p (Page_mark_dirty p w).

(** The second loop of [sync_pages], over the snapshot [pages_to_sync].  The
    function ends with [return Result<void>(ErrorCode::SUCCESS)]: the
    constructor that takes an [ErrorCode] builds a result that is not ok and
    holds that code. *)
Fixpoint sync_loop (pages_to_sync : list page_id) (w : World)
  : option (Result unit * World) :=
  match pages_to_sync with
  | [] => Some (Err SUCCESS, w)
  | p :: rest =>
      match Page_lock p w with
      | None => None
      | Some w1 =>
          if decide (get_state w1 p ≠ DIRTY) then sync_loop rest (Page_unlock p w1)
          else
            let w2 := set_state p WRITEBACK w1 in
            match get_block_device w2 (inode_ (page w2 p)) with
            | Some d =>
                let sector := offset_ (page w2 p) / sector_size_ (device w2 d) in
                let '(result, w3) := device_write d sector (data_ (page w2 p)) PAGE_SIZE w2 in
                match result with
                | Ok _ =>
                    sync_loop rest
                      (Page_unlock p (on_cache incr_writebacks (Page_clear_dirty p w3)))
                | Err e => Some (Err e, Page_unlock p (set_state p ERROR w3))
                end
            | None => sync_loop rest (Page_unlock p w2)
            end
      end
  end.

(** [PageCache::sync_pages]; [inode = None] is the default [nullptr]. *)
Definition PageCache_sync_pages (inode : option inode_id) (w : World)
  : option (Result unit * World) :=
  let pages_to_sync :=
    filter (fun p => (inode = None ∨ Some (inode_ (page w p)) = inode)
                     ∧ get_state w p = DIRTY)
           (dirty_list_ (g_page_cache w)) in
  sync_loop pages_to_sync w.

(** One erased entry of the loop of [invalidate_pages]. *)
Definition invalidate_entry (p : page_id) (w : World) : World :=
  let w1 := PageCache_remove_from_lru p w in
  let w2 := if is_dirty w1 p then PageCache_remove_from_dirty_list p w1 else w1 in
  on_cache (fun c => set_current_pages (wrap64 (current_pages_ c - 1)) c) w2.

(** [PageCache::invalidate_pages]: every entry whose key names [inode] is
    erased from the index, whatever its offset. *)
Definition PageCache_invalidate_pages (inode : inode_id) (w : World) : World :=
  let victims :=
    filter (fun kv : PageKey * page_id => kv.1.1 = inode)
           (map_to_list (pages_ (g_page_cache w))) in
  let w1 := foldl (fun w' kv => invalidate_entry kv.2 w') w victims in
  on_cache (fun c =>
    set_pages (filter (fun kv : PageKey * page_id => kv.1.1 ≠ inode) (pages_ c)) c) w1.

(** [PageCache::set_max_pages] *)
Definition PageCache_set_max_pages (fuel : nat) (max_pages : Z) (w : World)
  : option World :=
  let w1 := on_cache (set_max max_pages) w in
  if max_pages <? current_pages_ (g_page_cache w1)
  then PageCache_evict_pages fuel (current_pages_ (g_page_cache w1) - max_pages) w1
  else Some w1.

(** ** inode.cpp : Inode

    [now] stands for the value [std::chrono::system_clock::now()] returns. *)

Definition update_inode (f : Inode -> Inode) (i : inode_id) (w : World) : World :=
  set_inodes (<[i := f (inode w i)]> (inodes w)) w.

Definition get_inode_size (w : World) (i : inode_id) : Z := attr_size (attr_ (inode w i)).

Definition touch_atime (now : Z) (ino : Inode) : Inode :=
  let a := attr_ ino in
  Inode_set_attr
    (mkFileAttribute (attr_mode a) (attr_size a) now (attr_mtime a) (attr_ctime a)) ino.

(** [attr_.size = sz; attr_.mtime = attr_.ctime = now] *)
Definition set_size_mtime_ctime (sz now : Z) (ino : Inode) : Inode :=
  let a := attr_ ino in
  Inode_set_attr (mkFileAttribute (attr_mode a) sz (attr_atime a) now now) ino.

(** The loop of [Inode::read]; [buf] is what has been copied out so far. *)
Fixpoint Inode_read_loop (fuel : nat) (i : inode_id) (pos actual_size bytes_read : Z)
  (buf : list Z) (w : World) : option (Result Z * list Z * World) :=
  match fuel with
  | O => None
  | S fuel' =>
      if bytes_read <? actual_size then
        let page_offset := Z.land (wrap64 (pos + bytes_read)) PAGE_MASK in
        let page_pos := Z.land (wrap64 (pos + bytes_read)) (PAGE_SIZE - 1) in
        let page_bytes := Z.min (actual_size - bytes_read) (PAGE_SIZE - page_pos) in
        match PageCache_read_page fuel' i page_offset w with
        | None => None
        | Some (Err e, w1) => Some (Err e, buf, w1)
        | Some (Ok p, w1) =>
            let chunk := slice (data_ (page w1 p)) (Z.to_nat page_pos) (Z.to_nat page_bytes) in
            Inode_read_loop fuel' i pos actual_size (bytes_read + page_bytes)
              (buf ++ chunk) (Page_put p w1)
        end
      else Some (Ok bytes_read, buf, w)
  end.

(** [Inode::read]: the result, the bytes copied to the caller's buffer and the
    state afterwards. *)
Definition Inode_read (fuel : nat) (i : inode_id) (pos size now : Z) (w : World)
  : option (Result Z * list Z * World) :=
  if negb (ops_ (inode w i)) then Some (Err FS_EIO, [], w)
  else if get_inode_size w i <=? pos then Some (Ok 0, [], w)
  else
    let actual_size := Z.min size (wrap64 (get_inode_size w i - pos)) in
    match Inode_read_loop fuel i pos actual_size 0 [] w with
    | Some (Ok n, buf, w1) => Some (Ok n, buf, update_inode (touch_atime now) i w1)
    | other => other
    end.

(** The loop of [Inode::write]. *)
Fixpoint Inode_write_loop (fuel : nat) (i : inode_id) (pos : Z) (buffer : list Z)
  (size bytes_written : Z) (w : World) : option (Result Z * World) :=
  match fuel with
  | O => None
  | S fuel' =>
      if bytes_written <? size then
        let page_offset := Z.land (wrap64 (pos + bytes_written)) PAGE_MASK in
        let page_pos := Z.land (wrap64 (pos + bytes_written)) (PAGE_SIZE - 1) in
        let page_bytes := Z.min (size - bytes_written) (PAGE_SIZE - page_pos) in
        match PageCache_find_or_create_page fuel' i page_offset w with
        | None => None
        | Some (p, w1) =>
            let filled :=
              if negb (page_pos =? 0) || negb (page_bytes =? PAGE_SIZE) then
                if is_uptodate w1 p then Some (Ok p, w1)
                else PageCache_read_page fuel' i page_offset w1
              else Some (Ok p, w1) in
            match filled with
            | None => None
            | Some (Err e, w2) => Some (Err e, Page_put p w2)
            | Some (Ok _, w2) =>
                let chunk := slice buffer (Z.to_nat bytes_written) (Z.to_nat page_bytes) in
                let w3 :=
                  update_page
                    (Page_set_data (memcpy (data_ (page w2 p)) (Z.to_nat page_pos) chunk))
                    p w2 in
                Inode_write_loop fuel' i pos buffer size (bytes_written + page_bytes)
                  (Page_put p (Page_mark_dirty p w3))
            end
        end
      else Some (Ok bytes_written, w)
  end.

(** [Inode::write] *)
Definition Inode_write (fuel : nat) (i : inode_id) (pos : Z) (buffer : list Z)
  (size now : Z) (w : World) : option (Result Z * World) :=
  if negb (ops_ (inode w i)) then Some (Err FS_EIO, w)
  else if negb (is_writable (attr_mode (attr_ (inode w i)))) then Some (Err FS_EACCES, w)
  else
    match Inode_write_loop fuel i pos buffer size 0 w with
    | Some (Ok bytes_written, w1) =>
        let new_end := wrap64 (pos + bytes_written) in
        let sz := if get_inode_size w1 i <? new_end then new_end else get_inode_size w1 i in
        Some (Ok bytes_written, update_inode (set_size_mtime_ctime sz now) i w1)
    | other => other
    end.

(** [Inode::truncate] *)
Definition Inode_truncate (i : inode_id) (size now : Z) (w : World) : Result unit * World :=
  if size =? get_inode_size w i then (Ok tt, w)
  else
    let w1 := if size <? get_inode_size w i then PageCache_invalidate_pages i w else w in
    (Ok tt, update_inode (set_size_mtime_ctime size now) i w1).

(** ** file.cpp : File *)

Definition File_set_pos (pos : Z) (f : File) : File :=
  mkFile (dentry_inode_ f) (flags_ f) pos.

(** [File::seek].  [offset_t] is [u64], so the sums wrap modulo 2^64.  With
    [whence = 2] the inode of the dentry is dereferenced unchecked; [None]
    stands for that dereference of a null pointer. *)
Definition File_seek (f : File) (offset whence : Z) (w : World)
  : option (Result Z * File) :=
  if whence =? 0 then
    Some (Ok offset, File_set_pos offset f)
  else if whence =? 1 then
    let pos := wrap64 (pos_ f + offset) in
    Some (Ok pos, File_set_pos pos f)
  else if whence =? 2 then
    match dentry_inode_ f with
    | Some i =>
        let pos := wrap64 (get_inode_size w i + offset) in
        Some (Ok pos, File_set_pos pos f)
    | None => None
    end
  else Some (Err FS_EINVAL, f).

(** ** Eviction candidates

    The eviction loop passes over a page whose reference count exceeds 1. *)

Definition pinned (w : World) (p : page_id) : Prop := 1 < ref_count w p.

Global Instance pinned_dec (w : World) (p : page_id) : Decision (pinned w p).
Proof. unfold pinned. apply _. Defined.

(** The LRU list is not empty and holds pinned pages only. *)
Definition all_pinned (w : World) : Prop :=
  lru_list_ (g_page_cache w) ≠ [] ∧ Forall (pinned w) (lru_list_ (g_page_cache w)).

(** [current_pages_ >= max_pages_], the test of [allocate_page]. *)
Definition cache_full (w : World) : Prop :=
  max_pages_ (g_page_cache w) <= current_pages_ (g_page_cache w).

(** ** Concrete states

    The states at which the properties below are exercised. *)

(** A 1 KiB device constructed read-only, every byte 7. *)
Definition rom : MemoryBlockDevice :=
  mkMemoryBlockDevice (repeat 7 (Z.to_nat 1024)) 512 4096 true.

(** An 8 KiB zero-filled writable device with 512-byte sectors, as the
    constructor of [MemoryBlockDevice] leaves it. *)
Definition blank_device : MemoryBlockDevice :=
  mkMemoryBlockDevice (repeat 0 (Z.to_nat 8192)) 512 4096 false.

(** A regular file: mode 0644, empty, on device 0. *)
Definition empty_file_inode : Inode :=
  mkInode 1 (Some 0%nat) true (mkFileAttribute 420 0 0 0 0).

(** The same file once it holds [sz] bytes. *)
Definition file_inode_of_size (sz : Z) : Inode :=
  mkInode 1 (Some 0%nat) true (mkFileAttribute 420 sz 0 0 0).

(** One device, one file, an empty cache of the default capacity. *)
Definition fresh_world : World :=
  mkWorld (PageCache_new 1024) ∅ 0%nat {[ 0%nat := empty_file_inode ]}
    {[ 0%nat := blank_device ]}.

(** A cached page of inode 0 at offset [off] in state [s] with reference
    count [rc], linked in the LRU list. *)
Definition cached_page (off : Z) (s : PageState) (rc : Z) : Page :=
  mkPage (repeat 0 (Z.to_nat PAGE_SIZE)) off 0%nat rc s true.

(** A world whose cache holds the single page 0 at offset 0, on device [dev];
    the page is on the dirty list exactly when it is DIRTY. *)
Definition one_page_world (dev : MemoryBlockDevice) (s : PageState) (rc max_pages : Z)
  : World :=
  mkWorld
    (mkPageCache {[ (0%nat, 0) := 0%nat ]} [0%nat]
       (if decide (s = DIRTY) then [0%nat] else []) max_pages 1 0 0 0 0)
    {[ 0%nat := cached_page 0 s rc ]} 1%nat
    {[ 0%nat := file_inode_of_size 4096 ]} {[ 0%nat := dev ]}.

(** A file of 8192 bytes on the blank device, nothing cached yet. *)
Definition large_file_world : World :=
  set_inodes {[ 0%nat := file_inode_of_size 8192 ]} fresh_world.

(** The same after a caller has obtained both pages of the file with
    [read_page] and still holds them. *)
Definition two_page_world : World :=
  match PageCache_read_page 2 0%nat 0 large_file_world with
  | Some (_, w1) =>
      match PageCache_read_page 2 0%nat 4096 w1 with
      | Some (_, w2) => w2
      | None => w1
      end
  | None => large_file_world
  end.

(** An open file on inode 0, positioned at byte 10. *)
Definition open_file : File := mkFile (Some 0%nat) 2 10.

(** The fresh world with a cache of capacity 1. *)
Definition small_world : World := set_cache (PageCache_new 1) fresh_world.

(** A cache of capacity 1 over the read-only device, after a caller has
    created the page at offset 0 and marked it dirty. *)
Definition dirty_rom_world : World :=
  match PageCache_find_or_create_page 2 0%nat 0
          (set_devices {[ 0%nat := rom ]} small_world) with
  | Some (p, w) => Page_mark_dirty p w
  | None => small_world
  end.

(** What a caller reaches from [small_world] through the public interface:
    [find_or_create_page(inode, 0)] and then [get()] on the page returned. *)
Definition pinned_world : World :=
  match PageCache_find_or_create_page 2 0%nat 0 small_world with
  | Some (p, w) => Page_get p w
  | None => small_world
  end.

(** ** block_device.cpp : the other operations of MemoryBlockDevice *)

(** The byte offset a sector number stands for: [sector * sector_size_] in
    [u64]. *)
Definition sector_offset (d : MemoryBlockDevice) (sector : Z) : Z :=
  wrap64 (sector * sector_size_ d).

(** [MemoryBlockDevice::flush] *)
Definition MemoryBlockDevice_flush (d : MemoryBlockDevice) : Result unit * MemoryBlockDevice :=
  (Ok tt, d).

(** [MemoryBlockDevice::trim] *)
Definition MemoryBlockDevice_trim (d : MemoryBlockDevice) (sector size : Z)
  : Result unit * MemoryBlockDevice :=
  if readonly_ d then (Err FS_EROFS, d)
  else
    let offset := wrap64 (sector * sector_size_ d) in
    if get_size d <=? offset then (Err FS_EINVAL, d)
    else
      let actual_size := Z.min size (get_size d - offset) in
      (Ok tt,
       set_dev_data d
         (memcpy (dev_data_ d) (Z.to_nat offset) (repeat 0 (Z.to_nat actual_size)))).

(** [enum class BioType] and [struct Bio]; [bio_data] is the buffer [data]
    points to. *)
Inductive BioType : Type := READ | WRITE | FLUSH | DISCARD.

Record Bio : Type := mkBio {
  bio_type : BioType;
  bio_sector : Z;
  bio_size : Z;
  bio_data : list Z
}.

(** The code a completion callback receives for a result. *)
Definition result_code {A} (r : Result A) : ErrorCode :=
  match r with
  | Ok _ => SUCCESS
  | Err e => e
  end.

(** [MemoryBlockDevice::process_bio]: the code handed to the callback, the
    device afterwards and the buffer of the request afterwards.  None of the
    four operations throws. *)
Definition MemoryBlockDevice_process_bio (d : MemoryBlockDevice) (bio : Bio)
  : ErrorCode * MemoryBlockDevice * list Z :=
  match bio_type bio with
  | READ =>
      let '(res, bytes) := MemoryBlockDevice_read d (bio_sector bio) (bio_size bio) in
      (result_code res, d, memcpy (bio_data bio) 0 bytes)
  | WRITE =>
      let '(res, d') :=
        MemoryBlockDevice_write d (bio_sector bio) (bio_data bio) (bio_size bio) in
      (result_code res, d', bio_data bio)
  | FLUSH =>
      let '(res, d') := MemoryBlockDevice_flush d in
      (result_code res, d', bio_data bio)
  | DISCARD =>
      let '(res, d') := MemoryBlockDevice_trim d (bio_sector bio) (bio_size bio) in
      (result_code res, d', bio_data bio)
  end.

(** ** page_cache.cpp : the other operations of Page and PageCache *)

(** [Page::try_lock] *)
Definition Page_try_lock (p : page_id) (w : World) : bool * World :=
  if decide (get_state w p = LOCKED) then (false, w)
  else (true, set_state p LOCKED w).

(** [PageCache::flush_all] *)
Definition PageCache_flush_all (w : World) : option (Result unit * World) :=
  PageCache_sync_pages None w.

(** [PageCache::clear] *)
Definition PageCache_clear (w : World) : World :=
  on_cache (fun c =>
    mkPageCache ∅ [] [] (max_pages_ c) 0 (hits_ c) (misses_ c) (evictions_ c)
      (writebacks_ c)) w.

(** The key a page was created for. *)
Definition key_of (w : World) (p : page_id) : inode_id * Z :=
  (inode_ (page w p), offset_ (page w p)).


(** ** file.cpp : reading and writing through a file *)

(** [File::read]: [None] when [Inode::read] does not return. *)
Definition File_read (fuel : nat) (f : File) (size now : Z) (w : World)
  : option (Result Z * list Z * File * World) :=
  match dentry_inode_ f with
  | None => Some (Err FS_EIO, [], f, w)
  | Some i =>
      match Inode_read fuel i (pos_ f) size now w with
      | None => None
      | Some (Ok n, buf, w1) => Some (Ok n, buf, File_set_pos (wrap64 (pos_ f + n)) f, w1)
      | Some (Err e, buf, w1) => Some (Err e, buf, f, w1)
      end
  end.

(** [File::truncate] *)
Definition File_truncate (f : File) (size now : Z) (w : World) : Result unit * World :=
  match dentry_inode_ f with
  | None => (Err FS_EIO, w)
  | Some i => Inode_truncate i size now w
  end.

(** ** fd_table.cpp : FileDescriptorTable *)

(** [static_cast<int>] of a [size_t]. *)
Definition cast_int (n : Z) : Z :=
  let m := n mod 2 ^ 32 in
  if m <? 2 ^ 31 then m else m - 2 ^ 32.

(** [files_]: one slot per descriptor, [None] for a null [SharedPtr<File>]. *)
Record FileDescriptorTable : Type := mkFileDescriptorTable {
  files_ : list (option nat)
}.

(** [FileDescriptorTable::FileDescriptorTable(size)] *)
Definition FileDescriptorTable_new (size : nat) : FileDescriptorTable :=
  mkFileDescriptorTable (replicate size None).

(** [FileDescriptorTable::is_valid_fd] *)
Definition is_valid_fd (t : FileDescriptorTable) (fd : Z) : bool :=
  (0 <=? fd) && (fd <? cast_int (Z.of_nat (length (files_ t)))).

(** [files_[fd]] for a valid [fd]. *)
Definition slot (t : FileDescriptorTable) (fd : Z) : option nat :=
  mjoin (files_ t !! Z.to_nat fd).

(** The loop shared by [alloc_fd], [dup_fd] and [get_next_fd]: the first
    index whose slot is null. *)
Definition first_free (t : FileDescriptorTable) : option nat :=
  fst <$> list_find (fun s : option nat => s = None) (files_ t).

(** [FileDescriptorTable::alloc_fd] *)
Definition FileDescriptorTable_alloc_fd (t : FileDescriptorTable) (file : option nat)
  : Result Z * FileDescriptorTable :=
  match first_free t with
  | Some i => (Ok (cast_int (Z.of_nat i)), mkFileDescriptorTable (<[i := file]> (files_ t)))
  | None => (Err FS_ENOMEM, t)
  end.


(** [FileDescriptorTable::get_file] *)
Definition FileDescriptorTable_get_file (t : FileDescriptorTable) (fd : Z) : option nat :=
  if negb (is_valid_fd t fd) then None else slot t fd.


(** [FileDescriptorTable::dup2_fd] *)
Definition FileDescriptorTable_dup2_fd (t : FileDescriptorTable) (oldfd newfd : Z)
  : Result Z * FileDescriptorTable :=
  if negb (is_valid_fd t oldfd) || (newfd <? 0)
     || (cast_int (Z.of_nat (length (files_ t))) <=? newfd)
  then (Err FS_EINVAL, t)
  else
    match slot t oldfd with
    | None => (Err FS_EINVAL, t)
    | Some file =>
        let cleared :=
          match slot t newfd with
          | Some _ => <[Z.to_nat newfd := None]> (files_ t)
          | None => files_ t
          end in
        (Ok newfd, mkFileDescriptorTable (<[Z.to_nat newfd := Some file]> cleared))
    end.

(** [FileDescriptorTable::get_next_fd] *)
Definition FileDescriptorTable_get_next_fd (t : FileDescriptorTable) : Z :=
  match first_free t with
  | Some i => cast_int (Z.of_nat i)
  | None => -1
  end.

(** An eight-byte writable device with two-byte sectors, and the same device
    after three bytes were written at sector 1. *)
Definition tiny_device : MemoryBlockDevice :=
  mkMemoryBlockDevice [1; 2; 3; 4; 5; 6; 7; 8] 2 4 false.
Definition tiny_device_written : MemoryBlockDevice :=
  mkMemoryBlockDevice [1; 2; 9; 9; 9; 6; 7; 8] 2 4 false.
Definition tiny_device_trimmed : MemoryBlockDevice :=
  mkMemoryBlockDevice [1; 2; 3; 4; 5; 6; 0; 0] 2 4 false.


(** A table of four descriptors with 0 and 1 open on files 10 and 11. *)
Definition small_table : FileDescriptorTable :=
  mkFileDescriptorTable [Some 10%nat; Some 11%nat; None; None].

(** A table with no free descriptor. *)
Definition full_table : FileDescriptorTable :=
  mkFileDescriptorTable [Some 10%nat; Some 11%nat].

(** ** super_block.cpp : the inode cache of SuperBlock

    The cache holds weak references keyed by inode number.  Each of the three
    operations takes [inode_cache_mutex_], a [std::mutex], through a
    [lock_guard] for the length of its body; the mutex is modelled by the flag
    that says whether it is held, and a [lock] of a held mutex by the only
    thread there is does not return ([None]). *)

Record SuperBlock : Type := mkSuperBlock {
  sb_ops_ : bool;                    (* whether [ops_] is non-null *)
  inode_cache_ : gmap Z nat;
  inode_cache_mutex_ : bool
}.

Definition sb_lock (sb : SuperBlock) : option SuperBlock :=
  if inode_cache_mutex_ sb then None
  else Some (mkSuperBlock (sb_ops_ sb) (inode_cache_ sb) true).

Definition sb_unlock (sb : SuperBlock) : SuperBlock :=
  mkSuperBlock (sb_ops_ sb) (inode_cache_ sb) false.

Definition sb_set_cache (m : gmap Z nat) (sb : SuperBlock) : SuperBlock :=
  mkSuperBlock (sb_ops_ sb) m (inode_cache_mutex_ sb).

Section SuperBlockOps.
(** [alive h]: the inode behind the weak reference [h] still exists, so that
    [lock()] on it succeeds.  [ino_of h] is [inode->get_ino()].  [read_inode]
    is [ops_->read_inode], which belongs to the filesystem. *)
Variable alive : nat -> bool.
Variable ino_of : nat -> Z.
Variable read_inode : Z -> Result nat.

(** [SuperBlock::cache_inode] *)
Definition SuperBlock_cache_inode (sb : SuperBlock) (h : nat) : option SuperBlock :=
  match sb_lock sb with
  | None => None
  | Some sb1 => Some (sb_unlock (sb_set_cache (<[ino_of h := h]> (inode_cache_ sb1)) sb1))
  end.

(** [SuperBlock::evict_inode] *)
Definition SuperBlock_evict_inode (sb : SuperBlock) (ino : Z) : option SuperBlock :=
  match sb_lock sb with
  | None => None
  | Some sb1 => Some (sb_unlock (sb_set_cache (delete ino (inode_cache_ sb1)) sb1))
  end.

(** [SuperBlock::get_inode].  The call to [cache_inode] is made with the
    mutex still held by the [lock_guard] of [get_inode]. *)
Definition SuperBlock_get_inode (sb : SuperBlock) (ino : Z)
  : option (Result nat * SuperBlock) :=
  match sb_lock sb with
  | None => None
  | Some sb1 =>
      let found :=
        match inode_cache_ sb1 !! ino with
        | Some h => if alive h then Some h else None
        | None => None
        end in
      match found with
      | Some h => Some (Ok h, sb_unlock sb1)
      | None =>
          let sb2 :=
            match inode_cache_ sb1 !! ino with
            | Some _ => sb_set_cache (delete ino (inode_cache_ sb1)) sb1
            | None => sb1
            end in
          if negb (sb_ops_ sb2) then Some (Err FS_EIO, sb_unlock sb2)
          else
            match read_inode ino with
            | Ok h =>
                match SuperBlock_cache_inode sb2 h with
                | None => None
                | Some sb3 => Some (Ok h, sb_unlock sb3)
                end
            | Err e => Some (Err e, sb_unlock sb2)
            end
      end
  end.
End SuperBlockOps.

(** A superblock with operations, an empty inode cache and a free mutex. *)
Definition empty_superblock : SuperBlock := mkSuperBlock true ∅ false.

(** ** Cache shapes met by a write on a cold cache *)

(** Nothing cached, and room for at least one page. *)
Definition cache_empty (w : World) : Prop :=
  pages_ (g_page_cache w) = ∅ ∧
  lru_list_ (g_page_cache w) = [] ∧
  current_pages_ (g_page_cache w) = 0 ∧
  0 < max_pages_ (g_page_cache w).

(** Exactly the page [p] cached, under [key], held by its creator alone. *)
Definition sole_page (p : page_id) (key : inode_id * Z) (w : World) : Prop :=
  pages_ (g_page_cache w) = {[ key := p ]} ∧
  lru_list_ (g_page_cache w) = [p] ∧
  current_pages_ (g_page_cache w) = 1 ∧
  ref_count_ (page w p) = 1 ∧
  in_lru_ (page w p) = true ∧
  key_of w p = key.

(** What the steps of the write loop leave alone. *)
Definition same_backing (w w' : World) : Prop :=
  devices w' = devices w ∧ inodes w' = inodes w ∧
  max_pages_ (g_page_cache w') = max_pages_ (g_page_cache w).

(** [PageCache::~PageCache]: [sync_pages()] and then [clear()]. *)
Definition PageCache_destructor (w : World) : option World :=
  match PageCache_sync_pages None w with
  | Some (_, w1) => Some (PageCache_clear w1)
  | None => None
  end.

(** ** Threads

    The operations above run one call to completion.  A call made while
    other threads run is a sequence of atomic operations on the shared state,
    and other threads may run between two of them.  The atomic operations are
    those the code makes atomic: a method of [Page] that holds the mutex of
    the page ([lock], [unlock], [mark_dirty], [clear_dirty]), a load or a
    store of the atomic [state_], a method of [PageCache] for as long as it
    holds the mutex of the cache, and a read or a write of a device, which
    holds the mutex of the device.

    A thread is what is left to run of a call.  It has returned [r]; or its
    next operation is [op], which yields a value for the rest of the call, or
    cannot complete in the present state ([None]: [Page::lock] waits while
    the page is LOCKED, an eviction does not finish); or its next operation
    is the device read [block_device->read(sector, page->get_data(), size)]. *)
Inductive Thread (R : Type) : Type :=
| Return (r : R)
| Atomic (A : Type) (op : World -> option (A * World)) (k : A -> Thread R)
| DeviceRead (d : device_id) (sector : Z) (dst : page_id) (size : Z)
    (k : Result Z -> Thread R).
Arguments Return {R} r.
Arguments Atomic {R A} op k.
Arguments DeviceRead {R} d sector dst size k.

(** An atomic load, an atomic update, and an operation that may have to
    wait. *)
Definition Get {R A} (f : World -> A) (k : A -> Thread R) : Thread R :=
  Atomic (fun w => Some (f w, w)) k.
Definition Do {R} (f : World -> World) (k : Thread R) : Thread R :=
  Atomic (fun w => Some (tt, f w)) (fun _ => k).
Definition Wait {R} (f : World -> option World) (k : Thread R) : Thread R :=
  Atomic (fun w => match f w with Some w' => Some (tt, w') | None => None end) (fun _ => k).

(** [block_device->read(sector, page->get_data(), size)] on the state: the
    result, and the state with the bytes read copied to the buffer of the
    page. *)
Definition device_read_into (d : device_id) (sector : Z) (dst : page_id) (size : Z)
  (w : World) : Result Z * World :=
  let '(result, bytes) := MemoryBlockDevice_read (device w d) sector size in
  (result, update_page (Page_set_data (memcpy (data_ (page w dst)) 0 bytes)) dst w).

(** One operation of a thread: the thread and the state afterwards and the
    device reads issued, as (device, sector, size).  [None]: the thread
    has returned, or its operation cannot complete now. *)
Definition Thread_step {R} (t : Thread R) (w : World)
  : option (Thread R * World * list (device_id * Z * Z)) :=
  match t with
  | Return _ => None
  | Atomic op k =>
      match op w with
      | Some (a, w') => Some (k a, w', [])
      | None => None
      end
  | DeviceRead d sector dst size k =>
      let '(result, w') := device_read_into d sector dst size w in
      Some (k result, w', [(d, sector, size)])
  end.

(** A thread run with no other thread between its operations. *)
Fixpoint Thread_run {R} (t : Thread R) (w : World) : option (R * World) :=
  match t with
  | Return r => Some (r, w)
  | Atomic op k =>
      match op w with
      | Some (a, w') => Thread_run (k a) w'
      | None => None
      end
  | DeviceRead d sector dst size k =>
      let '(result, w') := device_read_into d sector dst size w in
      Thread_run (k result) w'
  end.

Definition returned {R} (t : Thread R) : option R :=
  match t with
  | Return r => Some r
  | _ => None
  end.

(** [PageCache::read_page], operation by operation. *)
Definition read_page_thread (fuel : nat) (inode : inode_id) (offset : Z)
  : Thread (Result page_id) :=
  Atomic (PageCache_find_or_create_page fuel inode offset) (fun p =>
  Get (fun w => is_uptodate w p) (fun uptodate =>
  if uptodate : bool then Return (Ok p)
  else
    Wait (Page_lock p) (
    Get (fun w => is_uptodate w p) (fun uptodate =>
    if uptodate : bool then Do (Page_unlock p) (Return (Ok p))
    else
      Get (fun w => get_block_device w inode) (fun block_device =>
      match block_device with
      | None => Do (Page_unlock p) (Return (Err FS_EIO))
      | Some d =>
          Get (fun w => sector_size_ (device w d)) (fun sector_size =>
          DeviceRead d (offset / sector_size) p PAGE_SIZE (fun result =>
          match result with
          | Err e => Do (set_state p ERROR) (Do (Page_unlock p) (Return (Err e)))
          | Ok _ => Do (set_state p UPTODATE) (Do (Page_unlock p) (Return (Ok p)))
          end))
      end))))).

(** The second loop of [PageCache::sync_pages], operation by operation. *)
Fixpoint sync_thread (pages_to_sync : list page_id) : Thread (Result unit) :=
  match pages_to_sync with
  | [] => Return (Err SUCCESS)
  | p :: rest =>
      Wait (Page_lock p) (
      Get (fun w => get_state w p) (fun state =>
      if decide (state ≠ DIRTY) then Do (Page_unlock p) (sync_thread rest)
      else
        Do (set_state p WRITEBACK) (
        Get (fun w => get_block_device w (inode_ (page w p))) (fun block_device =>
        match block_device with
        | Some d =>
            Get (fun w => offset_ (page w p) / sector_size_ (device w d)) (fun sector =>
            Atomic (fun w => Some (device_write d sector (data_ (page w p)) PAGE_SIZE w))
              (fun result =>
            match result with
            | Ok _ =>
                Do (Page_clear_dirty p) (
                Do (on_cache incr_writebacks) (
                Do (Page_unlock p) (sync_thread rest)))
            | Err e => Do (set_state p ERROR) (Do (Page_unlock p) (Return (Err e)))
            end))
        | None => Do (Page_unlock p) (sync_thread rest)
        end))))
  end.

(** [PageCache::sync_pages]: the snapshot of the dirty list is taken with
    the mutex of the cache held, the loop over it runs with the mutex
    released. *)
Definition sync_pages_thread (inode : option inode_id) : Thread (Result unit) :=
  Get (fun w =>
          filter (fun p => (inode = None ∨ Some (inode_ (page w p)) = inode)
                           ∧ get_state w p = DIRTY)
                 (dirty_list_ (g_page_cache w)))
       sync_thread.

(** A thread that holds the page [p] and calls [p->mark_dirty()], as
    [Inode::write] does once it has copied its bytes into the page. *)
Definition mark_dirty_thread (p : page_id) : Thread unit :=
  Do (Page_mark_dirty p) (Return tt).

(** Two threads over one state, and the device reads issued so far, oldest
    first. *)
Record Pool (A B : Type) : Type := mkPool {
  shared : World;
  thread1 : Thread A;
  thread2 : Thread B;
  device_reads : list (device_id * Z * Z)
}.
Arguments mkPool {A B} shared thread1 thread2 device_reads.
Arguments shared {A B} _.
Arguments thread1 {A B} _.
Arguments thread2 {A B} _.
Arguments device_reads {A B} _.

(** Whose operation comes next. *)
Inductive Turn : Type := T1 | T2.

(** The thread named makes its next operation; [None] when it cannot. *)
Definition Pool_step {A B} (who : Turn) (c : Pool A B) : option (Pool A B) :=
  match who with
  | T1 =>
      match Thread_step (thread1 c) (shared c) with
      | Some (t, w, reads) => Some (mkPool w t (thread2 c) (device_reads c ++ reads))
      | None => None
      end
  | T2 =>
      match Thread_step (thread2 c) (shared c) with
      | Some (t, w, reads) => Some (mkPool w (thread1 c) t (device_reads c ++ reads))
      | None => None
      end
  end.

(** A schedule, run from the left; [None] when it names a thread that cannot
    make a step at that point. *)
Fixpoint Pool_run {A B} (schedule : list Turn) (c : Pool A B) : option (Pool A B) :=
  match schedule with
  | [] => Some c
  | who :: rest =>
      match Pool_step who c with
      | Some c' => Pool_run rest c'
      | None => None
      end
  end.

(** Two threads call [read_page(inode, 0)] on the large file, none of whose
    pages is cached. *)
Definition two_readers : Pool (Result page_id) (Result page_id) :=
  mkPool large_file_world (read_page_thread 2 0%nat 0) (read_page_thread 2 0%nat 0) [].

(** The first reader creates the page, finds it not up to date, locks it and
    is about to read the device when the second reader arrives. *)
Definition first_reader_locks : list Turn := [T1; T1; T1; T1; T1; T1].

(** The second reader finds the page, which is LOCKED and so not up to date,
    and goes on to [lock()]. *)
Definition second_reader_arrives : list Turn := [T2; T2].

(** The first reader reads the device, stores UPTODATE, unlocks and returns;
    then the second reader runs to its return. *)
Definition first_reader_finishes : list Turn := [T1; T1; T1].
Definition second_reader_finishes : list Turn := [T2; T2; T2; T2; T2; T2; T2].

(** A writer has created the pages at offsets 0 and 4096 of the large file on
    the device [dev], marked both dirty and still holds them. *)
Definition two_dirty_world (dev : MemoryBlockDevice) : World :=
  let w0 := set_devices {[ 0%nat := dev ]} large_file_world in
  match PageCache_find_or_create_page 2 0%nat 0 w0 with
  | Some (p0, w1) =>
      match PageCache_find_or_create_page 2 0%nat 4096 (Page_mark_dirty p0 w1) with
      | Some (p1, w2) => Page_mark_dirty p1 w2
      | None => w0
      end
  | None => w0
  end.

(** One thread calls [sync_pages(inode)] while the writer calls
    [mark_dirty()] on the page at offset 0 once more. *)
Definition sync_and_writer (dev : MemoryBlockDevice) : Pool (Result unit) unit :=
  mkPool (two_dirty_world dev) (sync_pages_thread (Some 0%nat)) (mark_dirty_thread 0%nat) [].

(** [sync_pages] takes its snapshot and locks the first page; the writer
    marks that page dirty; [sync_pages] runs on for [n] operations. *)
Definition mark_dirty_after_lock (n : nat) : list Turn := [T1; T1; T2] ++ replicate n T1.

(** * Properties *)

(** ** Stores and accessors *)

Lemma wrap64_small (x : Z) : 0 <= x < 2 ^ 64 -> wrap64 x = x.
Proof. intros H. unfold wrap64. apply Z.mod_small. exact H. Qed.

Lemma page_update_page_eq (f : Page -> Page) (p : page_id) (w : World) :
  page (update_page f p w) p = f (page w p).
Proof. unfold page, update_page. simpl. apply lookup_total_insert_eq. Qed.

Lemma page_update_page_ne (f : Page -> Page) (p q : page_id) (w : World) :
  p ≠ q -> page (update_page f p w) q = page w q.
Proof. intros Hne. unfold page, update_page. simpl. by apply lookup_total_insert_ne. Qed.

Lemma get_state_set_state_eq (p : page_id) (s : PageState) (w : World) :
  get_state (set_state p s w) p = s.
Proof. unfold get_state, set_state. by rewrite page_update_page_eq. Qed.

Lemma get_state_set_state_ne (p q : page_id) (s : PageState) (w : World) :
  p ≠ q -> get_state (set_state p s w) q = get_state w q.
Proof. intros Hne. unfold get_state, set_state. by rewrite page_update_page_ne. Qed.

Lemma Page_lock_unlocked (p : page_id) (w : World) :
  get_state w p ≠ LOCKED -> Page_lock p w = Some (set_state p LOCKED w).
Proof. intros H. unfold Page_lock. by rewrite decide_False. Qed.

Lemma Page_unlock_locked (p : page_id) (w : World) :
  get_state w p = LOCKED -> Page_unlock p w = set_state p UPTODATE w.
Proof. intros H. unfold Page_unlock. by rewrite decide_True. Qed.

(** The only transition into DIRTY enrols the page in the dirty list. *)
Lemma mark_dirty_enrols (p : page_id) (w : World) :
  get_state w p ≠ DIRTY -> get_state (Page_mark_dirty p w) p = DIRTY ->
  p ∈ dirty_list_ (g_page_cache (Page_mark_dirty p w)).
Proof.
  unfold Page_mark_dirty. case_decide as Hs.
  - intros _ _. simpl. apply elem_of_app. right. apply list_elem_of_singleton. done.
  - intros Hnd Hd. congruence.
Qed.

(** ** Block device *)

Section BlockDevice.
Variable d : MemoryBlockDevice.

(** C7. A write to a device constructed read-only is refused with the
    read-only error for every sector, buffer and length, and the device that
    results is the device that was given: no backing byte changes. *)
Theorem readonly_write_refused (sector : Z) (buffer : list Z) (size : Z) :
  readonly_ d = true ->
  MemoryBlockDevice_write d sector buffer size = (Err FS_EROFS, d).
Proof. intros Hro. unfold MemoryBlockDevice_write. by rewrite Hro. Qed.

(** The same refusal seen through a device handle of the world. *)
Lemma readonly_device_write_refused (w : World) (h : device_id) (sector : Z)
  (buffer : list Z) (size : Z) :
  readonly_ (device w h) = true ->
  (device_write h sector buffer size w).1 = Err FS_EROFS ∧
  ∀ h', device (device_write h sector buffer size w).2 h' = device w h'.
Proof.
  intros Hro. unfold device_write, MemoryBlockDevice_write. rewrite Hro. simpl.
  split; [done|]. intros h'. unfold device. simpl.
  destruct (decide (h = h')) as [->|Hne].
  - by rewrite lookup_total_insert_eq.
  - by rewrite lookup_total_insert_ne.
Qed.

(** A successful write keeps the size of the device when the buffer holds
    the bytes it announces. *)
Lemma write_keeps_size (sector : Z) (buffer : list Z) (size n : Z) (d' : MemoryBlockDevice) :
  0 <= size <= Z.of_nat (length buffer) ->
  MemoryBlockDevice_write d sector buffer size = (Ok n, d') ->
  get_size d' = get_size d.
Proof.
  intros Hsz. unfold MemoryBlockDevice_write.
  destruct (readonly_ d); [discriminate|].
  set (offset := wrap64 (sector * sector_size_ d)).
  assert (0 <= offset) by (apply Z.mod_pos_bound; lia).
  destruct (Z.leb_spec (get_size d) offset) as [|Hlt]; [discriminate|].
  intros [= <- <-]. unfold get_size, set_dev_data, memcpy in *. simpl.
  rewrite !length_app, !length_take, length_drop. lia.
Qed.
End BlockDevice.

Lemma readonly_write_refused_witness :
  readonly_ rom = true ∧ MemoryBlockDevice_write rom 0 [9; 9] 2 = (Err FS_EROFS, rom).
Proof. split; [reflexivity | apply (readonly_write_refused rom 0 [9; 9] 2); reflexivity]. Defined.

(** ** File positions *)

Section Seek.
Variables (f : File) (w : World) (offset : Z).

End Seek.


(** ** Page lock *)

Section PageLock.
Variables (w : World) (p : page_id).

(** On a page that is not LOCKED, [lock] returns and leaves the page LOCKED,
    and the [unlock] that follows leaves it UPTODATE, whatever its state was
    before [lock]: the state before is not kept anywhere. *)
Lemma lock_unlock_uptodate :
  get_state w p ≠ LOCKED ->
  ∃ w1, Page_lock p w = Some w1 ∧
        get_state w1 p = LOCKED ∧
        get_state (Page_unlock p w1) p = UPTODATE.
Proof.
  intros Hs. exists (set_state p LOCKED w).
  split; [by apply Page_lock_unlocked|].
  split; [apply get_state_set_state_eq|].
  rewrite Page_unlock_locked by apply get_state_set_state_eq.
  apply get_state_set_state_eq.
Qed.

(** [lock] and [unlock] touch no other page. *)
Lemma lock_unlock_frame (q : page_id) (w1 : World) :
  p ≠ q -> Page_lock p w = Some w1 ->
  get_state (Page_unlock p w1) q = get_state w q.
Proof.
  intros Hne. unfold Page_lock. case_decide; [discriminate|]. intros [= <-].
  rewrite Page_unlock_locked by apply get_state_set_state_eq.
  by rewrite !get_state_set_state_ne.
Qed.
End PageLock.

Lemma lock_unlock_uptodate_witness :
  get_state (one_page_world blank_device CLEAN 1 8) 0%nat ≠ LOCKED ∧
  ∃ w1, Page_lock 0%nat (one_page_world blank_device CLEAN 1 8) = Some w1 ∧
        get_state w1 0%nat = LOCKED ∧
        get_state (Page_unlock 0%nat w1) 0%nat = UPTODATE.
Proof.
  split; [vm_compute; discriminate|].
  apply (lock_unlock_uptodate (one_page_world blank_device CLEAN 1 8) 0%nat).
  vm_compute; discriminate.
Defined.

(** C4. A cached page is DIRTY.  [lock] stores LOCKED in the one state field
    the page has, and [unlock], finding LOCKED, stores UPTODATE: after the
    pair the page is UPTODATE, not DIRTY, although nothing has written it. *)
Lemma dirty_lost_by_lock_unlock :
  get_state (one_page_world blank_device DIRTY 1 8) 0%nat = DIRTY ∧
  option_map (fun w1 => get_state (Page_unlock 0%nat w1) 0%nat)
    (Page_lock 0%nat (one_page_world blank_device DIRTY 1 8)) = Some UPTODATE ∧
  UPTODATE ≠ DIRTY.
Proof. split; [|split]; [vm_compute; reflexivity | vm_compute; reflexivity | discriminate]. Qed.

(** ** Eviction *)

Lemma evict_loop_unfold (fuel : nat) (count evicted : Z) (w : World) :
  evict_loop (S fuel) count evicted w =
  if evicted <? count then
    match last (lru_list_ (g_page_cache w)) with
    | None => Some w
    | Some p =>
        if 1 <? ref_count w p then
          evict_loop fuel count evicted
            (on_cache (fun c => set_lru_list (p :: removelast (lru_list_ c)) c) w)
        else evict_loop fuel count (evicted + 1) (evict_victim p w)
    end
  else Some w.
Proof. reflexivity. Qed.

Lemma removelast_snoc (l : list page_id) (x : page_id) : removelast (l ++ [x]) = l.
Proof. apply removelast_last. Qed.

(** While every page of a non-empty LRU list is pinned, an iteration of the
    loop rotates the list and evicts nothing, and the next one starts from a
    state of the same kind: the loop never exits. *)
Lemma evict_loop_all_pinned (fuel : nat) :
  ∀ (count evicted : Z) (w : World),
    evicted < count -> all_pinned w -> evict_loop fuel count evicted w = None.
Proof.
  induction fuel as [|fuel IH]; intros count evicted w Hlt [Hne Hall]; [reflexivity|].
  rewrite evict_loop_unfold.
  destruct (Z.ltb_spec evicted count) as [_|]; [|lia].
  destruct (last (lru_list_ (g_page_cache w))) as [p|] eqn:Hlast.
  - apply last_Some in Hlast as [l' Hl'].
    assert (Hp : pinned w p).
    { rewrite Forall_forall in Hall. apply Hall. rewrite Hl'.
      apply elem_of_app. right. by apply list_elem_of_singleton. }
    unfold pinned in Hp. destruct (Z.ltb_spec 1 (ref_count w p)) as [_|]; [|lia].
    apply IH; [done|]. split; simpl; [done|].
    rewrite Hl', removelast_snoc. constructor; [exact Hp|].
    rewrite Hl' in Hall. apply Forall_app in Hall as [Hall _]. exact Hall.
  - apply last_None in Hlast. done.
Qed.

(** Eviction allocates nothing. *)
Lemma next_page_clear_dirty (p : page_id) (w : World) :
  next_page (Page_clear_dirty p w) = next_page w.
Proof. unfold Page_clear_dirty. by case_decide. Qed.

Lemma next_page_device_write (d : device_id) (sector : Z) (buffer : list Z) (size : Z)
  (w : World) :
  next_page (device_write d sector buffer size w).2 = next_page w.
Proof. unfold device_write. by destruct (MemoryBlockDevice_write _ _ _ _). Qed.

Lemma next_page_remove_from_lru (p : page_id) (w : World) :
  next_page (PageCache_remove_from_lru p w) = next_page w.
Proof. unfold PageCache_remove_from_lru. by destruct (in_lru_ _). Qed.

Lemma next_page_evict_victim (p : page_id) (w : World) :
  next_page (evict_victim p w) = next_page w.
Proof.
  unfold evict_victim. simpl. rewrite next_page_remove_from_lru. simpl.
  destruct (is_dirty w p); [|done].
  destruct (get_block_device w (inode_ (page w p))) as [d|]; [|done].
  pose proof (next_page_device_write d
    (offset_ (page w p) / sector_size_ (device w d)) (data_ (page w p)) PAGE_SIZE w) as Hw.
  destruct (device_write _ _ _ _ _) as [r w']. simpl in *.
  by rewrite next_page_clear_dirty.
Qed.

(** The last page of a list that is not pinned, with pinned pages behind it. *)
Lemma last_unpinned (w : World) (l : list page_id) :
  ¬ Forall (pinned w) l ->
  ∃ l1 p l2, l = l1 ++ p :: l2 ∧ ¬ pinned w p ∧ Forall (pinned w) l2.
Proof.
  induction l as [|a l IH]; intros Hn.
  - destruct Hn. constructor.
  - destruct (decide (Forall (pinned w) l)) as [Hl|Hl].
    + exists [], a, l. split; [done|]. split; [|done].
      intros Ha. apply Hn. by constructor.
    + destruct (IH Hl) as (l1 & p & l2 & -> & Hp & Hl2).
      exists (a :: l1), p, l2. done.
Qed.

(** With an unpinned page in the list, [evict_pages(1)] rotates the pinned
    pages behind it to the front, evicts it and returns. *)
Lemma evict_loop_reaches_victim (l2 : list page_id) :
  ∀ (l1 : list page_id) (p : page_id) (w : World) (fuel : nat),
    lru_list_ (g_page_cache w) = l1 ++ p :: l2 ->
    ¬ pinned w p -> Forall (pinned w) l2 ->
    (length l2 + 2 <= fuel)%nat ->
    ∃ w', evict_loop fuel 1 0 w = Some w' ∧ next_page w' = next_page w.
Proof.
  induction l2 as [|q l2 IH] using rev_ind; intros l1 p w fuel Hlru Hp Hl2 Hfuel.
  - destruct fuel as [|[|fuel]]; [simpl in Hfuel; lia | simpl in Hfuel; lia |].
    rewrite evict_loop_unfold. change (0 <? 1) with true. cbv iota.
    rewrite Hlru, last_snoc.
    unfold pinned in Hp. destruct (Z.ltb_spec 1 (ref_count w p)) as [|_]; [lia|].
    rewrite evict_loop_unfold. change (0 + 1 <? 1) with false. cbv iota.
    eexists. split; [reflexivity | apply next_page_evict_victim].
  - rewrite length_app in Hfuel. simpl in Hfuel.
    destruct fuel as [|fuel]; [lia|].
    rewrite evict_loop_unfold. change (0 <? 1) with true. cbv iota.
    replace (l1 ++ p :: l2 ++ [q]) with ((l1 ++ p :: l2) ++ [q]) in Hlru
      by (by rewrite <- app_assoc).
    rewrite Hlru, last_snoc.
    apply Forall_app in Hl2 as [Hl2 Hq]. rewrite Forall_singleton in Hq.
    unfold pinned in Hq. destruct (Z.ltb_spec 1 (ref_count w q)) as [_|]; [|lia].
    set (w1 := on_cache _ w).
    destruct (IH (q :: l1) p w1 fuel) as (w' & Hrun & Hnext);
      [| exact Hp | exact Hl2 | lia | by exists w'].
    subst w1. simpl. by rewrite Hlru, removelast_snoc.
Qed.

(** [evict_pages(1)] returns unless every page of a non-empty LRU list is
    pinned; it allocates no page. *)
Lemma evict_one_returns (w : World) (fuel : nat) :
  ¬ all_pinned w ->
  (length (lru_list_ (g_page_cache w)) + 2 <= fuel)%nat ->
  ∃ w', PageCache_evict_pages fuel 1 w = Some w' ∧ next_page w' = next_page w.
Proof.
  intros Hnp Hfuel. unfold PageCache_evict_pages.
  destruct (lru_list_ (g_page_cache w)) as [|a l] eqn:Hlru.
  - destruct fuel as [|fuel]; [simpl in Hfuel; lia|].
    rewrite evict_loop_unfold, Hlru. simpl. by exists w.
  - assert (Hn : ¬ Forall (pinned w) (a :: l)).
    { intros Hall. apply Hnp. split; rewrite Hlru; done. }
    destruct (last_unpinned w _ Hn) as (l1 & p & l2 & Heq & Hp & Hl2).
    apply (evict_loop_reaches_victim l2 l1 p); [by rewrite Hlru | done | done |].
    rewrite Heq, length_app in Hfuel. simpl in Hfuel. lia.
Qed.

(** A page straight from [allocate_page]. *)
Lemma install_page_spec (key : PageKey) (w : World) :
  (install_page key w).1 = next_page w ∧
  page (install_page key w).2 (next_page w) = Page_set_in_lru true (Page_new key.2 key.1) ∧
  pages_ (g_page_cache (install_page key w).2) !! key = Some (next_page w).
Proof.
  unfold install_page, page. simpl. split; [done|]. split.
  - apply lookup_total_insert_eq.
  - apply lookup_insert_eq.
Qed.

(** The handle names a page of the store, the one the constructor built. *)
Lemma install_page_heap (key : PageKey) (w : World) :
  heap (install_page key w).2 !! next_page w
  = Some (Page_set_in_lru true (Page_new key.2 key.1)).
Proof. unfold install_page. simpl. apply lookup_insert_eq. Qed.

Lemma slice_zeros (n start len : nat) : Forall (fun b => b = 0) (slice (repeat 0 n) start len).
Proof.
  unfold slice. apply Forall_take, Forall_drop, Forall_forall.
  intros b Hb. apply list_elem_of_In, repeat_spec in Hb. done.
Qed.

Section Allocation.
Variables (w : World) (ino : inode_id) (off : Z) (fuel : nat).

(** For a key that is not in the index, [find_or_create_page] returns
    whenever the eviction it may start does, that is, unless the cache is
    full while every page of a non-empty LRU list is pinned.  The handle it
    returns is indexed under the key and names a page of the store, the page
    the constructor built: CLEAN, with a buffer of [PAGE_SIZE] zero bytes, so
    that whatever range is copied out of it holds zeros only. *)
Lemma fresh_page_zero_filled :
  pages_ (g_page_cache w) !! (ino, off) = None ->
  ¬ (cache_full w ∧ all_pinned w) ->
  (length (lru_list_ (g_page_cache w)) + 2 <= fuel)%nat ->
  ∃ p w', PageCache_find_or_create_page fuel ino off w = Some (p, w') ∧
          p = next_page w ∧
          pages_ (g_page_cache w') !! (ino, off) = Some p ∧
          heap w' !! p = Some (Page_set_in_lru true (Page_new off ino)) ∧
          state_ (page w' p) = CLEAN ∧
          data_ (page w' p) = repeat 0 (Z.to_nat PAGE_SIZE) ∧
          ∀ start len, Forall (fun b => b = 0) (slice (data_ (page w' p)) start len).
Proof.
  intros Hmiss Hroom Hfuel.
  unfold PageCache_find_or_create_page, PageCache_find_page_locked. cbv zeta.
  rewrite Hmiss. set (w1 := on_cache incr_misses w).
  assert (Hdone : ∃ w2, PageCache_allocate_page fuel (ino, off) w1
                        = Some (install_page (ino, off) w2) ∧ next_page w2 = next_page w).
  { unfold PageCache_allocate_page.
    destruct (Z.leb_spec (max_pages_ (g_page_cache w1)) (current_pages_ (g_page_cache w1)))
      as [Hfull|_]; [|by exists w1].
    destruct (evict_one_returns w1 fuel) as (w2 & Hrun & Hnext).
    - intros Hall. apply Hroom. split; [exact Hfull | exact Hall].
    - exact Hfuel.
    - exists w2. by rewrite Hrun. }
  destruct Hdone as (w2 & -> & Hnext).
  destruct (install_page_spec (ino, off) w2) as (Hp & Hpage & Hidx).
  pose proof (install_page_heap (ino, off) w2) as Hheap.
  destruct (install_page (ino, off) w2) as [p w'] eqn:Hinst. simpl in *.
  exists p, w'. rewrite Hnext in *. subst p.
  repeat split; try done.
  - by rewrite Hpage.
  - by rewrite Hpage.
  - intros start len. rewrite Hpage. exact (slice_zeros (Z.to_nat PAGE_SIZE) start len).
Qed.
End Allocation.

Lemma fresh_page_zero_filled_witness :
  pages_ (g_page_cache (one_page_world blank_device DIRTY 1 1)) !! (0%nat, 4096) = None ∧
  ¬ (cache_full (one_page_world blank_device DIRTY 1 1) ∧
     all_pinned (one_page_world blank_device DIRTY 1 1)) ∧
  ∃ p w', PageCache_find_or_create_page 3 0%nat 4096 (one_page_world blank_device DIRTY 1 1)
            = Some (p, w') ∧
          p = 1%nat ∧
          pages_ (g_page_cache w') !! (0%nat, 4096) = Some p ∧
          heap w' !! p = Some (Page_set_in_lru true (Page_new 4096 0%nat)) ∧
          state_ (page w' p) = CLEAN ∧
          data_ (page w' p) = repeat 0 (Z.to_nat PAGE_SIZE) ∧
          ∀ start len, Forall (fun b => b = 0) (slice (data_ (page w' p)) start len).
Proof.
  assert (Hroom : ¬ (cache_full (one_page_world blank_device DIRTY 1 1) ∧
                     all_pinned (one_page_world blank_device DIRTY 1 1))).
  { intros [_ [_ Hall]]. apply Forall_cons in Hall as [Hp _]. vm_compute in Hp. discriminate. }
  split; [reflexivity|]. split; [exact Hroom|].
  apply (fresh_page_zero_filled (one_page_world blank_device DIRTY 1 1) 0%nat 4096 3);
    [reflexivity | exact Hroom | simpl; lia].
Defined.

(** The state a caller reaches with one [find_or_create_page] and one [get]:
    a full cache whose only page has reference count 2. *)
Lemma pinned_world_all_pinned : cache_full pinned_world ∧ all_pinned pinned_world.
Proof.
  assert (Hlru : lru_list_ (g_page_cache pinned_world) = [0%nat]) by (vm_compute; reflexivity).
  split; [vm_compute; discriminate|].
  split; rewrite Hlru; [discriminate|].
  constructor; [vm_compute; reflexivity | constructor].
Qed.

(** C5. In that state [evict_pages(1)] does not terminate: the loop has not
    exited after any number of iterations. *)
Theorem evict_pages_spins_when_all_pinned :
  ∀ fuel, PageCache_evict_pages fuel 1 pinned_world = None.
Proof.
  intros fuel. apply evict_loop_all_pinned; [lia | apply pinned_world_all_pinned].
Qed.

(** C10. In that state the key of inode 0 and offset 4096 is not in the
    index, and [find_or_create_page] called for it returns no page: the
    allocation starts the eviction, which has not finished after any number
    of iterations. *)
Theorem allocation_spins_when_all_pinned :
  pages_ (g_page_cache pinned_world) !! (0%nat, 4096) = None ∧
  ∀ fuel, PageCache_find_or_create_page fuel 0%nat 4096 pinned_world = None.
Proof.
  split; [vm_compute; reflexivity|].
  intros fuel. unfold PageCache_find_or_create_page, PageCache_find_page_locked. cbv zeta.
  replace (pages_ (g_page_cache pinned_world) !! (0%nat, 4096)) with (@None page_id)
    by (vm_compute; reflexivity).
  unfold PageCache_allocate_page.
  replace (max_pages_ _ <=? current_pages_ _) with true by (vm_compute; reflexivity).
  unfold PageCache_evict_pages.
  rewrite evict_loop_all_pinned; [reflexivity | lia | apply pinned_world_all_pinned].
Qed.

Lemma pages_remove_from_lru (p : page_id) (w : World) :
  pages_ (g_page_cache (PageCache_remove_from_lru p w)) = pages_ (g_page_cache w).
Proof. unfold PageCache_remove_from_lru. by destruct (in_lru_ _). Qed.

Lemma get_state_remove_from_lru (q p : page_id) (w : World) :
  get_state (PageCache_remove_from_lru q w) p = get_state w p.
Proof.
  unfold PageCache_remove_from_lru. destruct (in_lru_ (page w q)); [|done].
  unfold get_state. destruct (decide (q = p)) as [->|Hne].
  - by rewrite page_update_page_eq.
  - by rewrite page_update_page_ne.
Qed.

Lemma writebacks_remove_from_lru (q : page_id) (w : World) :
  writebacks_ (g_page_cache (PageCache_remove_from_lru q w)) = writebacks_ (g_page_cache w).
Proof. unfold PageCache_remove_from_lru. by destruct (in_lru_ _). Qed.

(** Whatever the device answers, a dirty victim with a device leaves the
    eviction UPTODATE and counted as written back, and no longer indexed. *)
Lemma evict_victim_ignores_write_result (p : page_id) (w : World) (d : device_id) :
  is_dirty w p = true ->
  get_block_device w (inode_ (page w p)) = Some d ->
  get_state (evict_victim p w) p = UPTODATE ∧
  writebacks_ (g_page_cache (evict_victim p w)) = wrap64 (writebacks_ (g_page_cache w) + 1) ∧
  pages_ (g_page_cache (evict_victim p w)) !! (inode_ (page w p), offset_ (page w p)) = None.
Proof.
  intros Hdirty Hdev. unfold evict_victim. rewrite Hdirty, Hdev.
  apply bool_decide_eq_true in Hdirty. unfold device_write.
  destruct (MemoryBlockDevice_write _ _ _ _) as [r dev].
  set (w' := set_devices _ w).
  assert (Hclear : Page_clear_dirty p w'
                   = PageCache_remove_from_dirty_list p (set_state p UPTODATE w')).
  { unfold Page_clear_dirty. by rewrite decide_True. }
  rewrite Hclear. set (w1 := on_cache incr_writebacks _).
  assert (Hs1 : get_state w1 p = UPTODATE) by apply get_state_set_state_eq.
  assert (Hp1 : inode_ (page w1 p) = inode_ (page w p) ∧ offset_ (page w1 p) = offset_ (page w p)).
  { unfold w1, set_state. change (page (on_cache ?f (PageCache_remove_from_dirty_list p ?x)) p)
      with (page x p). by rewrite page_update_page_eq. }
  destruct Hp1 as [-> ->]. cbv zeta. simpl.
  change (get_state (on_cache ?f ?x) p) with (get_state x p).
  rewrite get_state_remove_from_lru, writebacks_remove_from_lru, pages_remove_from_lru.
  split; [exact Hs1|]. split; [reflexivity|]. simpl. apply lookup_delete_eq.
Qed.

(** C6. The victim is indexed, DIRTY, held by the cache alone, and sits on a
    read-only device, so the write issued for it fails.  [evict_pages] does not look at the result: the
    victim ends UPTODATE and the write-back counter is incremented; the page is
    unlinked from the index and counted as evicted. *)
Theorem evict_ignores_write_failure :
  pages_ (g_page_cache dirty_rom_world) !! (0%nat, 0) = Some 0%nat ∧
  is_dirty dirty_rom_world 0%nat = true ∧
  ref_count dirty_rom_world 0%nat = 1 ∧
  (device_write 0%nat 0 (data_ (page dirty_rom_world 0%nat)) PAGE_SIZE
     dirty_rom_world).1 = Err FS_EROFS ∧
  option_map
    (fun w' => (get_state w' 0%nat,
                writebacks_ (g_page_cache w'),
                pages_ (g_page_cache w') !! (0%nat, 0),
                evictions_ (g_page_cache w'),
                dev_data_ (device w' 0%nat)))
    (PageCache_evict_pages 2 1 dirty_rom_world)
  = Some (UPTODATE, 1, None, 1, dev_data_ rom).
Proof. repeat split; vm_compute; reflexivity. Qed.

(** ** Synchronisation *)

(** [lock] stores LOCKED over the state it finds, so the test that follows it
    in [sync_pages] sees a page that is not DIRTY: the page is unlocked, which
    leaves it UPTODATE, and the loop moves on without a write. *)
Lemma sync_loop_step (p : page_id) (rest : list page_id) (w : World) :
  get_state w p ≠ LOCKED ->
  sync_loop (p :: rest) w = sync_loop rest (set_state p UPTODATE (set_state p LOCKED w)).
Proof.
  intros Hs. cbn [sync_loop]. rewrite Page_lock_unlocked by exact Hs.
  rewrite decide_True by (rewrite get_state_set_state_eq; discriminate).
  by rewrite Page_unlock_locked by apply get_state_set_state_eq.
Qed.

Lemma sync_loop_sequential (l : list page_id) :
  ∀ w, Forall (fun p => get_state w p ≠ LOCKED) l ->
    ∃ w', sync_loop l w = Some (Err SUCCESS, w') ∧
          (∀ p, p ∈ l -> get_state w' p = UPTODATE) ∧
          (∀ p, p ∉ l -> get_state w' p = get_state w p) ∧
          devices w' = devices w ∧ g_page_cache w' = g_page_cache w.
Proof.
  induction l as [|a l IH]; intros w Hl.
  - exists w. repeat split; try done. intros p Hp. by apply elem_of_nil in Hp.
  - apply Forall_cons in Hl as [Ha Hl].
    rewrite sync_loop_step by exact Ha.
    set (w1 := set_state a UPTODATE (set_state a LOCKED w)).
    assert (Hsame : ∀ q, a ≠ q -> get_state w1 q = get_state w q).
    { intros q Hq. unfold w1. by rewrite !get_state_set_state_ne. }
    assert (Ha1 : get_state w1 a = UPTODATE) by apply get_state_set_state_eq.
    destruct (IH w1) as (w' & Hrun & Hin & Hout & Hdev & Hcache).
    { rewrite Forall_forall in Hl |- *. intros q Hq.
      destruct (decide (a = q)) as [<-|Hne]; [by rewrite Ha1|].
      rewrite Hsame by done. by apply Hl. }
    exists w'. split; [exact Hrun|]. repeat split; try done.
    + intros q Hq. apply elem_of_cons in Hq as [->|Hq]; [|by apply Hin].
      destruct (decide (a ∈ l)); [by apply Hin|]. by rewrite Hout.
    + intros q Hq. apply not_elem_of_cons in Hq as [Hne Hq].
      rewrite Hout by done. by apply Hsame.
Qed.

(** Run by a single thread, [sync_pages] reaches the end of its loop and
    issues no write: devices and counters are as before. *)
Lemma sync_pages_writes_nothing (ino : option inode_id) (w : World) :
  ∃ w', PageCache_sync_pages ino w = Some (Err SUCCESS, w') ∧
        devices w' = devices w ∧ g_page_cache w' = g_page_cache w.
Proof.
  unfold PageCache_sync_pages.
  destruct (sync_loop_sequential
              (filter (fun p => (ino = None ∨ Some (inode_ (page w p)) = ino)
                                ∧ get_state w p = DIRTY)
                      (dirty_list_ (g_page_cache w))) w)
    as (w' & Hrun & _ & _ & Hdev & Hcache).
  - apply Forall_forall. intros p Hp. apply list_elem_of_filter in Hp as [[_ Hd] _].
    rewrite Hd. discriminate.
  - by exists w'.
Qed.

Section Sync.
Variables (w : World) (ino : option inode_id) (p : page_id).

(** With no other thread running, [sync_pages] returns, and every page that
    the dirty list holds in state DIRTY at the call, for the inode asked for
    (or for any inode when none is given), is UPTODATE when it does, although
    no device was written. *)
Lemma sync_pages_alone_skips_write_back :
  p ∈ dirty_list_ (g_page_cache w) ->
  get_state w p = DIRTY ->
  ino = None ∨ Some (inode_ (page w p)) = ino ->
  ∃ w', PageCache_sync_pages ino w = Some (Err SUCCESS, w') ∧
        get_state w' p = UPTODATE ∧ devices w' = devices w.
Proof.
  intros Hin Hd Hino. unfold PageCache_sync_pages.
  set (pages_to_sync := filter _ _).
  destruct (sync_loop_sequential pages_to_sync w) as (w' & Hrun & Hup & _ & Hdev & _).
  - apply Forall_forall. intros q Hq. apply list_elem_of_filter in Hq as [[_ Hq] _].
    rewrite Hq. discriminate.
  - exists w'. split; [exact Hrun|]. split; [|exact Hdev]. apply Hup.
    apply list_elem_of_filter. done.
Qed.
End Sync.

(** ** Truncation *)

Lemma pages_invalidate_entry (p : page_id) (w : World) :
  pages_ (g_page_cache (invalidate_entry p w)) = pages_ (g_page_cache w).
Proof.
  unfold invalidate_entry. cbv zeta. simpl.
  destruct (is_dirty _ _); simpl; apply pages_remove_from_lru.
Qed.

Lemma pages_invalidate_entries (l : list (nat * Z * nat)) :
  ∀ w, pages_ (g_page_cache (foldl (fun w' kv => invalidate_entry kv.2 w') w l))
       = pages_ (g_page_cache w).
Proof.
  induction l as [|kv l IH]; intros w; [done|].
  simpl. by rewrite IH, pages_invalidate_entry.
Qed.

(** [invalidate_pages] has no range: no page of the inode stays indexed. *)
Lemma invalidate_pages_drops_every_page (i : inode_id) (w : World) (off : Z) :
  pages_ (g_page_cache (PageCache_invalidate_pages i w)) !! (i, off) = None.
Proof.
  unfold PageCache_invalidate_pages. cbv zeta. simpl.
  apply map_lookup_filter_None. right. intros p _ Hne. by apply Hne.
Qed.

(** Pages of other inodes stay indexed. *)
Lemma invalidate_pages_frame (i j : inode_id) (w : World) (off : Z) :
  i ≠ j ->
  pages_ (g_page_cache (PageCache_invalidate_pages i w)) !! (j, off)
  = pages_ (g_page_cache w) !! (j, off).
Proof.
  intros Hne. unfold PageCache_invalidate_pages. cbv zeta. simpl.
  rewrite pages_invalidate_entries.
  destruct (pages_ (g_page_cache w) !! (j, off)) as [p|] eqn:Hp.
  - apply map_lookup_filter_Some. split; [done|]. simpl. congruence.
  - apply map_lookup_filter_None. by left.
Qed.

(** A shrinking [truncate] drops every cached page of the file, those below
    the new end included. *)
Lemma truncate_shrink_drops_every_page (i : inode_id) (size now : Z) (w : World) (off : Z) :
  size < get_inode_size w i ->
  pages_ (g_page_cache (Inode_truncate i size now w).2) !! (i, off) = None.
Proof.
  intros Hlt. unfold Inode_truncate.
  destruct (Z.eqb_spec size (get_inode_size w i)); [lia|].
  destruct (Z.ltb_spec size (get_inode_size w i)); [|lia].
  simpl. apply invalidate_pages_drops_every_page.
Qed.

(** C3. A file of 8192 bytes has its two pages cached and is truncated to
    4097 bytes.  No page lies beyond the new end: the page at offset 4096
    holds it and the page at offset 0 is below it.  Both are gone from the
    index afterwards. *)
Theorem truncate_drops_retained_pages :
  get_inode_size two_page_world 0%nat = 8192 ∧
  pages_ (g_page_cache two_page_world) !! (0%nat, 0) = Some 0%nat ∧
  pages_ (g_page_cache two_page_world) !! (0%nat, 4096) = Some 1%nat ∧
  get_inode_size (Inode_truncate 0%nat 4097 9 two_page_world).2 0%nat = 4097 ∧
  pages_ (g_page_cache (Inode_truncate 0%nat 4097 9 two_page_world).2) !! (0%nat, 0) = None ∧
  pages_ (g_page_cache (Inode_truncate 0%nat 4097 9 two_page_world).2) !! (0%nat, 4096) = None.
Proof. repeat split; vm_compute; reflexivity. Qed.

(** ** Reading back what was written *)

(** Dropping the one reference a page is created with unlinks the page from
    the index, dirty or not. *)
Lemma put_releases_page (p : page_id) (w : World) :
  ref_count w p = 1 ->
  pages_ (g_page_cache (Page_put p w)) !! (inode_ (page w p), offset_ (page w p)) = None.
Proof.
  intros Hrc. unfold Page_put. rewrite Hrc. change (wrap32 (1 - 1) =? 0) with true.
  cbv iota zeta. unfold PageCache_release_page.
  unfold ref_count at 1. rewrite page_update_page_eq. simpl.
  set (w1 := on_cache _ _).
  assert (Hidx : pages_ (g_page_cache w1) !! (inode_ (page w p), offset_ (page w p)) = None)
    by apply lookup_delete_eq.
  destruct (is_dirty _ _); simpl; by rewrite pages_remove_from_lru.
Qed.

(** C1. One byte, 65, is written at position 0 of an empty file on a
    zero-filled device.  The write succeeds and the size becomes 1, which is
    [max(0, 0 + 1)]; the page written is no longer in the index, and the read of
    the same byte that follows succeeds and returns 0, the byte of the
    device. *)
Theorem written_byte_not_read_back :
  option_map
    (fun rw : Result Z * World =>
       (rw.1, get_inode_size rw.2 0%nat, pages_ (g_page_cache rw.2) !! (0%nat, 0)))
    (Inode_write 5 0%nat 0 [65] 1 7 fresh_world)
  = Some (Ok 1, 1, None) ∧
  (Inode_write 5 0%nat 0 [65] 1 7 fresh_world ≫= fun rw =>
     option_map (fun rbw : Result Z * list Z * World => (rbw.1.1, rbw.1.2))
       (Inode_read 5 0%nat 0 1 9 rw.2))
  = Some (Ok 1, [0]).
Proof. split; vm_compute; reflexivity. Qed.

(** ** Calls made by several threads *)

(** Run with no other thread between its operations, the thread of
    [read_page] is the call of the sequential embedding. *)
Lemma read_page_thread_alone (fuel : nat) (i : inode_id) (off : Z) (w : World) :
  Thread_run (read_page_thread fuel i off) w = PageCache_read_page fuel i off w.
Proof.
  unfold read_page_thread, PageCache_read_page, Get, Do, Wait. cbn [Thread_run].
  destruct (PageCache_find_or_create_page fuel i off w) as [[p w1]|]; [|done].
  destruct (is_uptodate w1 p); [done|]. cbn [Thread_run].
  destruct (Page_lock p w1) as [w2|]; [|done]. cbn [Thread_run].
  destruct (is_uptodate w2 p); [done|]. cbn [Thread_run].
  destruct (get_block_device w2 i) as [d|]; [|done]. cbn [Thread_run].
  unfold device_read_into.
  destruct (MemoryBlockDevice_read (device w2 d) (off / sector_size_ (device w2 d)) PAGE_SIZE)
    as [[n|e] bytes]; reflexivity.
Qed.

(** The same for the loop of [sync_pages] and for [sync_pages]. *)
Lemma sync_thread_alone (l : list page_id) :
  ∀ w, Thread_run (sync_thread l) w = sync_loop l w.
Proof.
  induction l as [|p rest IH]; intros w; [done|].
  cbn [sync_thread sync_loop]. unfold Get, Do, Wait. cbn [Thread_run].
  destruct (Page_lock p w) as [w1|]; [|done]. cbn [Thread_run].
  case_decide; [apply IH|]. cbn [Thread_run].
  destruct (get_block_device _ _) as [d|]; [|apply IH]. cbn [Thread_run].
  destruct (device_write _ _ _ _ _) as [[n|e] w3]; [apply IH | reflexivity].
Qed.

Lemma sync_pages_thread_alone (ino : option inode_id) (w : World) :
  Thread_run (sync_pages_thread ino) w = PageCache_sync_pages ino w.
Proof. unfold sync_pages_thread, PageCache_sync_pages, Get. cbn [Thread_run]. apply sync_thread_alone. Qed.

(** C9. Two threads call [read_page] for the page at offset 0 of a file, a
    page that is not cached.  The first creates the page and locks it; the
    second finds the page LOCKED, so not up to date, and has to wait in
    [lock()].  The first reads the device, stores UPTODATE, unlocks and
    returns: one read so far.  The [lock()] of the second then stores LOCKED
    over UPTODATE, its second test of [is_uptodate()] fails as the first did,
    and it reads the device again.  Both callers return the same page, which
    is UPTODATE, and the device has served two reads of the same sector. *)
Theorem concurrent_readers_read_device_twice :
  pages_ (g_page_cache large_file_world) !! (0%nat, 0) = None ∧
  option_map (fun c => get_state (shared c) 0%nat)
    (Pool_run (first_reader_locks ++ second_reader_arrives) two_readers)
  = Some LOCKED ∧
  Pool_run (first_reader_locks ++ second_reader_arrives ++ [T2]) two_readers = None ∧
  option_map (fun c => (returned (thread1 c), get_state (shared c) 0%nat, device_reads c))
    (Pool_run (first_reader_locks ++ second_reader_arrives ++ first_reader_finishes)
       two_readers)
  = Some (Some (Ok 0%nat), UPTODATE, [(0%nat, 0, 4096)]) ∧
  option_map (fun c => (returned (thread1 c), returned (thread2 c),
                        get_state (shared c) 0%nat, device_reads c))
    (Pool_run (first_reader_locks ++ second_reader_arrives ++ first_reader_finishes
               ++ second_reader_finishes) two_readers)
  = Some (Some (Ok 0%nat), Some (Ok 0%nat), UPTODATE,
          [(0%nat, 0, 4096); (0%nat, 0, 4096)]).
Proof. repeat split; vm_compute; reflexivity. Qed.

(** C2. Pages 0 and 1 of the inode are DIRTY and on the dirty list when
    [sync_pages(inode)] is called.  It locks page 0, and before it tests the
    state again the writer marks page 0 dirty: the test finds DIRTY and the
    page is written.  On a read-only device the write fails: page 0 is put in
    ERROR and [sync_pages] returns the error at once, with page 1 still DIRTY.
    On a writable device the write succeeds, but [clear_dirty] and [unlock]
    leave a page in WRITEBACK as it is: [sync_pages] returns with page 0 in
    WRITEBACK. *)
Theorem sync_pages_leaves_pages_unsynced :
  (get_state (two_dirty_world rom) 0%nat, get_state (two_dirty_world rom) 1%nat,
   inode_ (page (two_dirty_world rom) 0%nat), inode_ (page (two_dirty_world rom) 1%nat),
   dirty_list_ (g_page_cache (two_dirty_world rom)))
  = (DIRTY, DIRTY, 0%nat, 0%nat, [0%nat; 1%nat]) ∧
  option_map (fun c => (returned (thread1 c), returned (thread2 c),
                        get_state (shared c) 0%nat, get_state (shared c) 1%nat))
    (Pool_run (mark_dirty_after_lock 7) (sync_and_writer rom))
  = Some (Some (Err FS_EROFS), Some tt, ERROR, DIRTY) ∧
  (get_state (two_dirty_world blank_device) 0%nat,
   get_state (two_dirty_world blank_device) 1%nat,
   inode_ (page (two_dirty_world blank_device) 0%nat),
   inode_ (page (two_dirty_world blank_device) 1%nat),
   dirty_list_ (g_page_cache (two_dirty_world blank_device)))
  = (DIRTY, DIRTY, 0%nat, 0%nat, [0%nat; 1%nat]) ∧
  option_map (fun c => (returned (thread1 c), returned (thread2 c),
                        get_state (shared c) 0%nat, get_state (shared c) 1%nat))
    (Pool_run (mark_dirty_after_lock 11) (sync_and_writer blank_device))
  = Some (Some (Err SUCCESS), Some tt, WRITEBACK, UPTODATE).
Proof. repeat split; vm_compute; reflexivity. Qed.

(** * Further properties of the code *)

(** ** Buffers *)

Lemma memcpy_length (dst : list Z) (off : nat) (src : list Z) :
  (off + length src <= length dst)%nat -> length (memcpy dst off src) = length dst.
Proof.
  intros H. unfold memcpy. rewrite !length_app, length_take, length_drop. lia.
Qed.

Lemma slice_memcpy (dst : list Z) (off : nat) (src : list Z) :
  (off <= length dst)%nat -> slice (memcpy dst off src) off (length src) = src.
Proof.
  intros H. unfold slice, memcpy.
  rewrite drop_app_length' by (rewrite length_take; lia).
  apply take_app_length.
Qed.

Lemma memcpy_lookup_outside (dst : list Z) (off : nat) (src : list Z) (i : nat) :
  (off + length src <= length dst)%nat ->
  (i < off ∨ off + length src <= i)%nat ->
  memcpy dst off src !! i = dst !! i.
Proof.
  intros Hfit Hi. unfold memcpy. destruct Hi as [Hi|Hi].
  - rewrite lookup_app_l by (rewrite length_take; lia). by apply lookup_take_lt.
  - rewrite lookup_app_r by (rewrite length_take; lia).
    rewrite length_take, lookup_app_r by lia.
    rewrite lookup_drop. f_equal. lia.
Qed.

Lemma slice_lookup (src : list Z) (off len k : nat) :
  (k < len)%nat -> slice src off len !! k = src !! (off + k)%nat.
Proof.
  intros Hk. unfold slice. rewrite lookup_take_lt by exact Hk. apply lookup_drop.
Qed.

Lemma slice_length (src : list Z) (off len : nat) :
  (off + len <= length src)%nat -> length (slice src off len) = len.
Proof. intros H. unfold slice. rewrite length_take, length_drop. lia. Qed.

Lemma sector_offset_nonneg (d : MemoryBlockDevice) (sector : Z) : 0 <= sector_offset d sector.
Proof. unfold sector_offset, wrap64. apply Z.mod_pos_bound. lia. Qed.

(** ** Block device: reads, writes and trims *)

Section DeviceIO.
Variables (d : MemoryBlockDevice) (sector : Z).

(** X1. What a successful write stored is what a read of the same sector and
    length returns: the first [n] bytes of the buffer, [n] being the count
    the write reported. *)
Theorem write_read_round_trip (buffer : list Z) (size n : Z) (d' : MemoryBlockDevice) :
  0 <= size <= Z.of_nat (length buffer) ->
  MemoryBlockDevice_write d sector buffer size = (Ok n, d') ->
  MemoryBlockDevice_read d' sector size = (Ok n, take (Z.to_nat n) buffer).
Proof.
  intros Hsz. unfold MemoryBlockDevice_write, MemoryBlockDevice_read.
  destruct (readonly_ d); [discriminate|].
  pose proof (sector_offset_nonneg d sector) as Hoff. unfold sector_offset in Hoff.
  set (offset := wrap64 (sector * sector_size_ d)) in *.
  destruct (Z.leb_spec (get_size d) offset) as [|Hlt]; [discriminate|].
  intros [= <- <-]. simpl. fold offset.
  set (n := Z.min size (get_size d - offset)).
  set (src := take (Z.to_nat n) buffer).
  assert (Hsrc : length src = Z.to_nat n) by (unfold src; rewrite length_take; lia).
  assert (Hsame : get_size (set_dev_data d (memcpy (dev_data_ d) (Z.to_nat offset) src))
                  = get_size d).
  { unfold get_size, set_dev_data. simpl. rewrite memcpy_length; [done|].
    unfold get_size in *. lia. }
  rewrite Hsame. destruct (Z.leb_spec (get_size d) offset); [lia|].
  fold n. f_equal. rewrite <- Hsrc. apply slice_memcpy. unfold get_size in *. lia.
Qed.

(** X2. A successful write reports at most [size] bytes, stays inside the
    device, keeps its size and its geometry, and changes no byte outside the
    range it reports. *)
Theorem write_touches_only_its_range (buffer : list Z) (size n : Z) (d' : MemoryBlockDevice) :
  0 <= size <= Z.of_nat (length buffer) ->
  MemoryBlockDevice_write d sector buffer size = (Ok n, d') ->
  0 <= n <= size ∧
  sector_offset d sector + n <= get_size d ∧
  get_size d' = get_size d ∧
  sector_size_ d' = sector_size_ d ∧
  ∀ i : nat,
    Z.of_nat i < sector_offset d sector ∨ sector_offset d sector + n <= Z.of_nat i ->
    dev_data_ d' !! i = dev_data_ d !! i.
Proof.
  intros Hsz. unfold MemoryBlockDevice_write.
  destruct (readonly_ d); [discriminate|].
  pose proof (sector_offset_nonneg d sector) as Hoff. unfold sector_offset in *.
  set (offset := wrap64 (sector * sector_size_ d)) in *.
  destruct (Z.leb_spec (get_size d) offset) as [|Hlt]; [discriminate|].
  intros [= <- <-].
  set (n := Z.min size (get_size d - offset)).
  set (src := take (Z.to_nat n) buffer).
  assert (Hsrc : length src = Z.to_nat n) by (unfold src; rewrite length_take; lia).
  assert (Hfit : (Z.to_nat offset + length src <= length (dev_data_ d))%nat)
    by (unfold get_size in *; lia).
  split; [lia|]. split; [lia|]. split.
  { unfold get_size, set_dev_data. simpl. by rewrite memcpy_length. }
  split; [done|]. intros i Hi. simpl.
  apply memcpy_lookup_outside; [exact Hfit | lia].
Qed.

(** X3. A read that starts at or past the end of the device fails with the
    invalid-argument error and copies nothing; any other read returns
    [min(size, device size - offset)] bytes, exactly the bytes stored from the
    offset on: it is clamped to the end of the device and never wraps. *)
Theorem read_clamps_to_device_end (size : Z) :
  0 <= size ->
  (get_size d <= sector_offset d sector ->
     MemoryBlockDevice_read d sector size = (Err FS_EINVAL, [])) ∧
  (sector_offset d sector < get_size d ->
     ∃ bytes,
       MemoryBlockDevice_read d sector size
         = (Ok (Z.min size (get_size d - sector_offset d sector)), bytes) ∧
       Z.of_nat (length bytes) = Z.min size (get_size d - sector_offset d sector) ∧
       ∀ k : nat, (k < length bytes)%nat ->
         bytes !! k = dev_data_ d !! (Z.to_nat (sector_offset d sector) + k)%nat).
Proof.
  intros Hsz. pose proof (sector_offset_nonneg d sector) as Hoff.
  unfold MemoryBlockDevice_read, sector_offset in *.
  set (offset := wrap64 (sector * sector_size_ d)) in *.
  split; intros Hcmp.
  - destruct (Z.leb_spec (get_size d) offset); [done | lia].
  - destruct (Z.leb_spec (get_size d) offset); [lia|].
    eexists. split; [reflexivity|].
    assert (Hlen : length (slice (dev_data_ d) (Z.to_nat offset)
                     (Z.to_nat (Z.min size (get_size d - offset))))
                   = Z.to_nat (Z.min size (get_size d - offset))).
    { apply slice_length. unfold get_size in *. lia. }
    split; [lia|]. intros k Hk. apply slice_lookup. lia.
Qed.

(** X4. A successful trim keeps the size of the device, and a read of the
    trimmed range returns zero bytes only. *)
Theorem trim_zero_fills (size : Z) (d' : MemoryBlockDevice) :
  0 <= size ->
  MemoryBlockDevice_trim d sector size = (Ok tt, d') ->
  get_size d' = get_size d ∧
  ∃ n, 0 <= n <= size ∧
       MemoryBlockDevice_read d' sector size = (Ok n, repeat 0 (Z.to_nat n)).
Proof.
  intros Hsz. unfold MemoryBlockDevice_trim, MemoryBlockDevice_read.
  destruct (readonly_ d); [discriminate|].
  pose proof (sector_offset_nonneg d sector) as Hoff. unfold sector_offset in Hoff.
  set (offset := wrap64 (sector * sector_size_ d)) in *.
  destruct (Z.leb_spec (get_size d) offset) as [|Hlt]; [discriminate|].
  intros [= <-]. simpl. fold offset.
  set (n := Z.min size (get_size d - offset)).
  assert (Hsrc : length (repeat 0 (Z.to_nat n)) = Z.to_nat n) by apply repeat_length.
  assert (Hsame : get_size (set_dev_data d
                    (memcpy (dev_data_ d) (Z.to_nat offset) (repeat 0 (Z.to_nat n))))
                  = get_size d).
  { unfold get_size, set_dev_data. simpl. rewrite memcpy_length; [done|].
    unfold get_size in *. lia. }
  split; [exact Hsame|]. exists n. split; [lia|].
  rewrite Hsame. destruct (Z.leb_spec (get_size d) offset); [lia|].
  fold n. f_equal.
  pose proof (slice_memcpy (dev_data_ d) (Z.to_nat offset) (repeat 0 (Z.to_nat n))) as Hs.
  rewrite Hsrc in Hs. apply Hs. unfold get_size in *. lia.
Qed.
End DeviceIO.

Lemma write_read_round_trip_witness :
  0 <= 3 <= Z.of_nat (length [9; 9; 9]) ∧
  MemoryBlockDevice_write tiny_device 1 [9; 9; 9] 3 = (Ok 3, tiny_device_written) ∧
  MemoryBlockDevice_read tiny_device_written 1 3 = (Ok 3, take (Z.to_nat 3) [9; 9; 9]).
Proof.
  split; [simpl; lia|]. split; [reflexivity|].
  apply (write_read_round_trip tiny_device 1 [9; 9; 9] 3 3 tiny_device_written);
    [simpl; lia | reflexivity].
Defined.

Lemma write_touches_only_its_range_witness :
  0 <= 3 <= Z.of_nat (length [9; 9; 9]) ∧
  MemoryBlockDevice_write tiny_device 1 [9; 9; 9] 3 = (Ok 3, tiny_device_written) ∧
  0 <= 3 <= 3 ∧
  sector_offset tiny_device 1 + 3 <= get_size tiny_device ∧
  get_size tiny_device_written = get_size tiny_device ∧
  sector_size_ tiny_device_written = sector_size_ tiny_device ∧
  ∀ i : nat,
    Z.of_nat i < sector_offset tiny_device 1 ∨ sector_offset tiny_device 1 + 3 <= Z.of_nat i ->
    dev_data_ tiny_device_written !! i = dev_data_ tiny_device !! i.
Proof.
  split; [simpl; lia|]. split; [reflexivity|].
  apply (write_touches_only_its_range tiny_device 1 [9; 9; 9] 3 3 tiny_device_written);
    [simpl; lia | reflexivity].
Defined.

Lemma read_clamps_to_device_end_witness :
  0 <= 5 ∧
  sector_offset tiny_device 3 < get_size tiny_device ∧
  get_size tiny_device <= sector_offset tiny_device 4 ∧
  MemoryBlockDevice_read tiny_device 4 5 = (Err FS_EINVAL, []) ∧
  ∃ bytes,
    MemoryBlockDevice_read tiny_device 3 5
      = (Ok (Z.min 5 (get_size tiny_device - sector_offset tiny_device 3)), bytes) ∧
    Z.of_nat (length bytes) = Z.min 5 (get_size tiny_device - sector_offset tiny_device 3) ∧
    ∀ k : nat, (k < length bytes)%nat ->
      bytes !! k = dev_data_ tiny_device !! (Z.to_nat (sector_offset tiny_device 3) + k)%nat.
Proof.
  split; [lia|]. split; [reflexivity|]. split; [discriminate|].
  split.
  - apply (read_clamps_to_device_end tiny_device 4 5); [lia | discriminate].
  - apply (read_clamps_to_device_end tiny_device 3 5); [lia | reflexivity].
Defined.

Lemma trim_zero_fills_witness :
  0 <= 4 ∧
  MemoryBlockDevice_trim tiny_device 3 4 = (Ok tt, tiny_device_trimmed) ∧
  get_size tiny_device_trimmed = get_size tiny_device ∧
  ∃ n, 0 <= n <= 4 ∧
       MemoryBlockDevice_read tiny_device_trimmed 3 4 = (Ok n, repeat 0 (Z.to_nat n)).
Proof.
  split; [lia|]. split; [reflexivity|].
  apply (trim_zero_fills tiny_device 3 4 tiny_device_trimmed); [lia | reflexivity].
Defined.

(** X5. No request changes a device constructed read-only: whatever its kind,
    sector, length and buffer, the device after the request is the device
    before, and a WRITE or DISCARD request completes with the read-only
    error. *)
Theorem bio_leaves_readonly_device (d : MemoryBlockDevice) (bio : Bio) :
  readonly_ d = true ->
  (MemoryBlockDevice_process_bio d bio).1.2 = d ∧
  (bio_type bio = WRITE ∨ bio_type bio = DISCARD ->
     (MemoryBlockDevice_process_bio d bio).1.1 = FS_EROFS).
Proof.
  intros Hro. unfold MemoryBlockDevice_process_bio, MemoryBlockDevice_write,
    MemoryBlockDevice_trim, MemoryBlockDevice_flush.
  rewrite Hro. destruct (bio_type bio); simpl.
  - destruct (MemoryBlockDevice_read _ _ _). split; [done|]. by intros [|].
  - done.
  - split; [done|]. by intros [|].
  - done.
Qed.

Lemma bio_leaves_readonly_device_witness :
  readonly_ rom = true ∧
  (MemoryBlockDevice_process_bio rom (mkBio WRITE 0 2 [9; 9])).1.2 = rom ∧
  (bio_type (mkBio WRITE 0 2 [9; 9]) = WRITE ∨ bio_type (mkBio WRITE 0 2 [9; 9]) = DISCARD ->
     (MemoryBlockDevice_process_bio rom (mkBio WRITE 0 2 [9; 9])).1.1 = FS_EROFS).
Proof.
  split; [reflexivity|].
  apply (bio_leaves_readonly_device rom (mkBio WRITE 0 2 [9; 9])). reflexivity.
Defined.




(** ** Pages: locking and the dirty list *)

Lemma get_state_add_to_dirty_list (p q : page_id) (w : World) :
  get_state (PageCache_add_to_dirty_list p w) q = get_state w q.
Proof. reflexivity. Qed.

Lemma get_state_remove_from_dirty_list (p q : page_id) (w : World) :
  get_state (PageCache_remove_from_dirty_list p w) q = get_state w q.
Proof. reflexivity. Qed.

Lemma elem_of_list_remove (p q : page_id) (l : list page_id) :
  q ∈ list_remove p l ↔ q ≠ p ∧ q ∈ l.
Proof. unfold list_remove. by rewrite list_elem_of_filter. Qed.

(** X7. [try_lock] on a page that is not LOCKED succeeds and leaves it
    LOCKED; a second attempt fails and changes nothing; once the page is
    unlocked an attempt succeeds again. *)
Theorem try_lock_excludes (w : World) (p : page_id) :
  get_state w p ≠ LOCKED ->
  ∃ w1, Page_try_lock p w = (true, w1) ∧
        get_state w1 p = LOCKED ∧
        Page_try_lock p w1 = (false, w1) ∧
        (Page_try_lock p (Page_unlock p w1)).1 = true.
Proof.
  intros Hs. exists (set_state p LOCKED w).
  assert (Hl : get_state (set_state p LOCKED w) p = LOCKED) by apply get_state_set_state_eq.
  unfold Page_try_lock. rewrite decide_False by exact Hs. rewrite decide_True by exact Hl.
  repeat split; try done.
  rewrite Page_unlock_locked by exact Hl.
  rewrite decide_False; [reflexivity|]. rewrite get_state_set_state_eq. discriminate.
Qed.

Lemma try_lock_excludes_witness :
  get_state (one_page_world blank_device UPTODATE 1 8) 0%nat ≠ LOCKED ∧
  ∃ w1, Page_try_lock 0%nat (one_page_world blank_device UPTODATE 1 8) = (true, w1) ∧
        get_state w1 0%nat = LOCKED ∧
        Page_try_lock 0%nat w1 = (false, w1) ∧
        (Page_try_lock 0%nat (Page_unlock 0%nat w1)).1 = true.
Proof.
  split; [vm_compute; discriminate|].
  apply (try_lock_excludes (one_page_world blank_device UPTODATE 1 8) 0%nat).
  vm_compute; discriminate.
Defined.

(** X8. Marking a page dirty twice is marking it once: the second call finds
    the page DIRTY and neither changes it nor enrols it in the dirty list
    again. *)
Theorem mark_dirty_idempotent (w : World) (p : page_id) :
  Page_mark_dirty p (Page_mark_dirty p w) = Page_mark_dirty p w.
Proof.
  destruct (decide (get_state w p ≠ DIRTY ∧ get_state w p ≠ WRITEBACK)) as [Hs|Hs].
  - assert (E : Page_mark_dirty p w = PageCache_add_to_dirty_list p (set_state p DIRTY w))
      by (unfold Page_mark_dirty; by rewrite decide_True).
    rewrite E. unfold Page_mark_dirty. rewrite decide_False; [reflexivity|].
    rewrite get_state_add_to_dirty_list, get_state_set_state_eq. intros [Hd _]. done.
  - assert (E : Page_mark_dirty p w = w)
      by (unfold Page_mark_dirty; by rewrite decide_False).
    by rewrite !E.
Qed.

(** X9. [clear_dirty] after [mark_dirty] leaves the page UPTODATE and off the
    dirty list, unless the page was in WRITEBACK, which neither call touches;
    the other pages keep their state and their place on the list. *)
Theorem clear_dirty_after_mark_dirty (w : World) (p : page_id) :
  get_state w p ≠ WRITEBACK ->
  get_state (Page_clear_dirty p (Page_mark_dirty p w)) p = UPTODATE ∧
  (p ∉ dirty_list_ (g_page_cache (Page_clear_dirty p (Page_mark_dirty p w)))) ∧
  ∀ q, q ≠ p ->
    get_state (Page_clear_dirty p (Page_mark_dirty p w)) q = get_state w q ∧
    ((q ∈ dirty_list_ (g_page_cache (Page_clear_dirty p (Page_mark_dirty p w))))
     ↔ (q ∈ dirty_list_ (g_page_cache w))).
Proof.
  intros Hwb.
  assert (Hd : get_state (Page_mark_dirty p w) p = DIRTY).
  { unfold Page_mark_dirty. case_decide as Hs.
    - by rewrite get_state_add_to_dirty_list, get_state_set_state_eq.
    - destruct (decide (get_state w p = DIRTY)); [done|]. destruct Hs. done. }
  unfold Page_clear_dirty. rewrite decide_True by exact Hd.
  rewrite get_state_remove_from_dirty_list, get_state_set_state_eq.
  split; [done|]. split.
  - simpl. rewrite elem_of_list_remove. intros [Hne _]. done.
  - intros q Hq. rewrite get_state_remove_from_dirty_list.
    rewrite get_state_set_state_ne by done. simpl. rewrite elem_of_list_remove.
    unfold Page_mark_dirty. case_decide as Hs.
    + rewrite get_state_add_to_dirty_list, get_state_set_state_ne by done. simpl.
      split; [done|]. rewrite elem_of_app, list_elem_of_singleton.
      split; [intros [_ [Hin|Heq]]; done | intros Hin; split; [done | by left]].
    + split; [done|]. split; [by intros [_ Hin] | intros Hin; by split].
Qed.

Lemma clear_dirty_after_mark_dirty_witness :
  get_state (one_page_world blank_device CLEAN 1 8) 0%nat ≠ WRITEBACK ∧
  get_state (Page_clear_dirty 0%nat
               (Page_mark_dirty 0%nat (one_page_world blank_device CLEAN 1 8))) 0%nat
    = UPTODATE.
Proof.
  split; [vm_compute; discriminate|].
  apply (clear_dirty_after_mark_dirty (one_page_world blank_device CLEAN 1 8) 0%nat).
  vm_compute; discriminate.
Defined.

(** ** Page cache: hits and misses *)

Lemma list_erase_perm (p : page_id) (l : list page_id) :
  p ∈ l -> p :: list_erase p l ≡ₚ l.
Proof.
  induction l as [|a l IH]; intros Hin; [by apply elem_of_nil in Hin|].
  simpl. case_decide as Ha; [by subst|].
  apply elem_of_cons in Hin as [->|Hin]; [done|].
  rewrite Permutation_swap. by rewrite IH.
Qed.

(** X10. A hit, through [find_page] or [find_or_create_page], returns the
    indexed page and moves it to the head of the LRU list, which keeps its
    other pages; it counts one hit and allocates and evicts nothing, even
    with no fuel for an eviction. *)
Theorem cache_hit_promotes (w : World) (i : inode_id) (off : Z) (p : page_id) (fuel : nat) :
  pages_ (g_page_cache w) !! (i, off) = Some p ->
  in_lru_ (page w p) = true ->
  p ∈ lru_list_ (g_page_cache w) ->
  ∃ w', PageCache_find_page i off w = (Some p, w') ∧
        PageCache_find_or_create_page fuel i off w = Some (p, w') ∧
        head (lru_list_ (g_page_cache w')) = Some p ∧
        lru_list_ (g_page_cache w') ≡ₚ lru_list_ (g_page_cache w) ∧
        hits_ (g_page_cache w') = wrap64 (hits_ (g_page_cache w) + 1) ∧
        misses_ (g_page_cache w') = misses_ (g_page_cache w) ∧
        pages_ (g_page_cache w') = pages_ (g_page_cache w) ∧
        current_pages_ (g_page_cache w') = current_pages_ (g_page_cache w) ∧
        heap w' = heap w ∧ next_page w' = next_page w ∧ devices w' = devices w.
Proof.
  intros Hidx Hin Hlru.
  exists (on_cache incr_hits (PageCache_update_lru p w)).
  unfold PageCache_find_page, PageCache_find_or_create_page, PageCache_find_page_locked.
  cbv zeta. rewrite Hidx. unfold PageCache_update_lru. rewrite Hin. simpl.
  repeat split; try done. by apply list_erase_perm.
Qed.

Lemma cache_hit_promotes_witness :
  pages_ (g_page_cache two_page_world) !! (0%nat, 0) = Some 0%nat ∧
  in_lru_ (page two_page_world 0%nat) = true ∧
  0%nat ∈ lru_list_ (g_page_cache two_page_world) ∧
  ∃ w', PageCache_find_page 0%nat 0 two_page_world = (Some 0%nat, w') ∧
        PageCache_find_or_create_page 0 0%nat 0 two_page_world = Some (0%nat, w') ∧
        head (lru_list_ (g_page_cache w')) = Some 0%nat ∧
        lru_list_ (g_page_cache w') ≡ₚ lru_list_ (g_page_cache two_page_world) ∧
        hits_ (g_page_cache w') = wrap64 (hits_ (g_page_cache two_page_world) + 1) ∧
        misses_ (g_page_cache w') = misses_ (g_page_cache two_page_world) ∧
        pages_ (g_page_cache w') = pages_ (g_page_cache two_page_world) ∧
        current_pages_ (g_page_cache w') = current_pages_ (g_page_cache two_page_world) ∧
        heap w' = heap two_page_world ∧ next_page w' = next_page two_page_world ∧
        devices w' = devices two_page_world.
Proof.
  assert (Hlru : lru_list_ (g_page_cache two_page_world) = [1%nat; 0%nat])
    by (vm_compute; reflexivity).
  assert (Hin : 0%nat ∈ lru_list_ (g_page_cache two_page_world)).
  { rewrite Hlru. apply elem_of_cons. right. apply list_elem_of_singleton. reflexivity. }
  split; [vm_compute; reflexivity|]. split; [vm_compute; reflexivity|].
  split; [exact Hin|].
  apply (cache_hit_promotes two_page_world 0%nat 0 0%nat 0);
    [vm_compute; reflexivity | vm_compute; reflexivity | exact Hin].
Defined.

Lemma allocate_page_installs (fuel : nat) (key : nat * Z) (w : World) (r : nat * World) :
  PageCache_allocate_page fuel key w = Some r -> ∃ w2, r = install_page key w2.
Proof.
  unfold PageCache_allocate_page. destruct (_ <=? _).
  - destruct (PageCache_evict_pages fuel 1 w) as [w1|]; [|discriminate].
    intros [= <-]. by exists w1.
  - intros [= <-]. by exists w.
Qed.

(** X11. Once [find_or_create_page] has created the page of a key, the key is
    cached: [find_page] returns that page, and [find_or_create_page] returns
    it again, for any fuel, without allocating another. *)
Theorem created_page_is_found (w : World) (i : inode_id) (off : Z) (fuel : nat)
  (p : page_id) (w' : World) :
  pages_ (g_page_cache w) !! (i, off) = None ->
  PageCache_find_or_create_page fuel i off w = Some (p, w') ->
  (PageCache_find_page i off w').1 = Some p ∧
  ∀ fuel', ∃ w'', PageCache_find_or_create_page fuel' i off w' = Some (p, w'') ∧
                  next_page w'' = next_page w' ∧ heap w'' = heap w'.
Proof.
  intros Hmiss. unfold PageCache_find_or_create_page at 1, PageCache_find_page_locked.
  cbv zeta. rewrite Hmiss. intros Halloc.
  apply allocate_page_installs in Halloc as [w2 Hinst].
  destruct (install_page_spec (i, off) w2) as (Hp & _ & Hidx).
  rewrite <- Hinst in Hp, Hidx. simpl in Hp, Hidx. rewrite <- Hp in Hidx.
  assert (Hlru : in_lru_ (page w' p) = true).
  { destruct (install_page_spec (i, off) w2) as (_ & Hpage & _).
    rewrite <- Hinst in Hpage. simpl in Hpage. rewrite <- Hp in Hpage. by rewrite Hpage. }
  unfold PageCache_find_page, PageCache_find_or_create_page, PageCache_find_page_locked.
  cbv zeta. rewrite Hidx. split; [done|]. intros fuel'. eexists. split; [reflexivity|].
  unfold PageCache_update_lru. by rewrite Hlru.
Qed.

Lemma created_page_is_found_witness :
  pages_ (g_page_cache fresh_world) !! (0%nat, 4096) = None ∧
  PageCache_find_or_create_page 2 0%nat 4096 fresh_world
    = Some (0%nat, (install_page (0%nat, 4096) (on_cache incr_misses fresh_world)).2) ∧
  (PageCache_find_page 0%nat 4096
     (install_page (0%nat, 4096) (on_cache incr_misses fresh_world)).2).1 = Some 0%nat.
Proof.
  split; [reflexivity|]. split; [reflexivity|].
  apply (created_page_is_found fresh_world 0%nat 4096 2 0%nat
           (install_page (0%nat, 4096) (on_cache incr_misses fresh_world)).2);
    reflexivity.
Defined.

(** ** Eviction keeps pinned pages *)










(** ** Synchronisation, again *)

Lemma filter_none (P : nat -> Prop) `{∀ x, Decision (P x)} (l : list nat) :
  (∀ x, x ∈ l -> ¬ P x) -> filter P l = [].
Proof.
  induction l as [|a l IH]; intros Hl; [done|].
  rewrite filter_cons. rewrite decide_False by (apply Hl; by left).
  apply IH. intros x Hx. apply Hl. by right.
Qed.

Lemma sync_loop_effect (l : list page_id) :
  ∀ w, Forall (fun p => get_state w p ≠ LOCKED) l ->
    ∃ w', sync_loop l w = Some (Err SUCCESS, w') ∧
          g_page_cache w' = g_page_cache w ∧ devices w' = devices w ∧
          ∀ p, page w' p
               = if decide (p ∈ l) then Page_set_state UPTODATE (page w p) else page w p.
Proof.
  induction l as [|a l IH]; intros w Hl.
  - exists w. repeat split; try done.
  - apply Forall_cons in Hl as [Ha Hl].
    rewrite sync_loop_step by exact Ha.
    set (w1 := set_state a UPTODATE (set_state a LOCKED w)).
    assert (Ha1 : page w1 a = Page_set_state UPTODATE (page w a)).
    { unfold w1, set_state. by rewrite !page_update_page_eq. }
    assert (Hne1 : ∀ q, a ≠ q -> page w1 q = page w q).
    { intros q Hq. unfold w1, set_state. by rewrite !page_update_page_ne. }
    destruct (IH w1) as (w' & Hrun & Hcache & Hdev & Hpages).
    { rewrite Forall_forall in Hl |- *. intros q Hq. unfold get_state.
      destruct (decide (a = q)) as [<-|Hne]; [by rewrite Ha1|].
      rewrite Hne1 by done. by apply Hl. }
    exists w'. split; [exact Hrun|]. split; [done|]. split; [done|].
    intros p. rewrite Hpages.
    destruct (decide (a = p)) as [<-|Hne].
    + rewrite Ha1, (decide_True (P := a ∈ a :: l)) by (by left).
      by destruct (decide (a ∈ l)).
    + rewrite Hne1 by done.
      destruct (decide (p ∈ l)) as [Hin|Hout].
      * by rewrite decide_True by (by right).
      * rewrite decide_False; [done|]. intros Hp. apply elem_of_cons in Hp as [->|Hp]; done.
Qed.

(** X13. Run by a single thread, [sync_pages] returns the result its last
    line builds, [Result<void>(ErrorCode::SUCCESS)]: a result that is not
    ok and whose error code is SUCCESS.  It changes no device, no counter and
    no buffer, and a second call straight after it returns the same result and
    changes nothing at all. *)
Theorem sync_pages_single_thread (ino : option nat) (w : World) :
  ∃ w', PageCache_sync_pages ino w = Some (Err SUCCESS, w') ∧
        is_ok (@Err unit SUCCESS) = false ∧
        devices w' = devices w ∧
        g_page_cache w' = g_page_cache w ∧
        (∀ p, data_ (page w' p) = data_ (page w p)) ∧
        PageCache_sync_pages ino w' = Some (Err SUCCESS, w').
Proof.
  unfold PageCache_sync_pages.
  set (l := filter _ (dirty_list_ (g_page_cache w))).
  destruct (sync_loop_effect l w) as (w' & Hrun & Hcache & Hdev & Hpages).
  { apply Forall_forall. intros p Hp. apply list_elem_of_filter in Hp as [[_ Hd] _].
    rewrite Hd. discriminate. }
  exists w'. split; [exact Hrun|]. split; [reflexivity|].
  split; [exact Hdev|]. split; [exact Hcache|]. split.
  - intros p. rewrite Hpages. by destruct (decide (p ∈ l)).
  - rewrite filter_none; [done|].
    intros p Hp [Hino Hd]. rewrite Hcache in Hp. unfold get_state in Hd.
    rewrite Hpages in Hino, Hd. destruct (decide (p ∈ l)) as [Hin|Hout].
    + simpl in Hd. discriminate.
    + apply Hout. apply list_elem_of_filter. done.
Qed.

(** ** Page cache: filling a page from the device *)

(** The second half of [read_page], once [find_or_create_page] has returned a
    page that is neither UPTODATE nor LOCKED. *)
Lemma read_page_fill (fuel : nat) (i : inode_id) (off : Z) (w w1 : World) (p : page_id)
  (d : device_id) (r : Result Z) (bytes : list Z) :
  PageCache_find_or_create_page fuel i off w = Some (p, w1) ->
  get_state w1 p ≠ UPTODATE -> get_state w1 p ≠ LOCKED ->
  get_block_device w1 i = Some d ->
  MemoryBlockDevice_read (device w1 d) (off / sector_size_ (device w1 d)) PAGE_SIZE
    = (r, bytes) ->
  ∃ w', PageCache_read_page fuel i off w
          = Some (match r with Ok _ => Ok p | Err e => Err e end, w') ∧
        get_state w' p = (match r with Ok _ => UPTODATE | Err _ => ERROR end) ∧
        data_ (page w' p) = memcpy (data_ (page w1 p)) 0 bytes ∧
        g_page_cache w' = g_page_cache w1 ∧ devices w' = devices w1 ∧
        ∀ q, q ≠ p -> page w' q = page w1 q.
Proof.
  intros Hfind Hup Hlk Hdev Hread. unfold PageCache_read_page. rewrite Hfind.
  unfold is_uptodate. rewrite bool_decide_eq_false_2 by exact Hup.
  rewrite Page_lock_unlocked by exact Hlk.
  rewrite bool_decide_eq_false_2 by (rewrite get_state_set_state_eq; discriminate).
  change (get_block_device (set_state p LOCKED w1) i) with (get_block_device w1 i).
  rewrite Hdev.
  change (device (set_state p LOCKED w1) d) with (device w1 d). rewrite Hread.
  set (w3 := update_page _ p (set_state p LOCKED w1)).
  assert (Hdata : ∀ s, data_ (page (set_state p s w3) p) = memcpy (data_ (page w1 p)) 0 bytes).
  { intros s. unfold set_state. rewrite page_update_page_eq. simpl.
    unfold w3. rewrite page_update_page_eq. simpl.
    unfold set_state. by rewrite page_update_page_eq. }
  assert (Hframe : ∀ s q, q ≠ p -> page (set_state p s w3) q = page w1 q).
  { intros s q Hq. unfold set_state. rewrite page_update_page_ne by done.
    unfold w3. rewrite page_update_page_ne by done.
    unfold set_state. by rewrite page_update_page_ne. }
  assert (Hunlock : ∀ s, s ≠ LOCKED -> Page_unlock p (set_state p s w3) = set_state p s w3).
  { intros s Hs. unfold Page_unlock. rewrite decide_False; [done|].
    by rewrite get_state_set_state_eq. }
  destruct r as [n|e]; rewrite Hunlock by discriminate; eexists; (split; [reflexivity|]);
    (split; [apply get_state_set_state_eq|]); (split; [apply Hdata|]);
    (split; [reflexivity|]); (split; [reflexivity|]); apply Hframe.
Qed.

(** X14. [read_page] on a miss, with room in the cache: the new page is
    indexed under the key whatever the device answers.  When the device read
    succeeds the page is UPTODATE and its buffer is the bytes read over a
    zero-filled page; when it fails the error is returned and the page stays
    cached in state ERROR with a zero buffer.  No device is changed. *)
Theorem read_page_miss (w : World) (i : inode_id) (off : Z) (d : device_id) (fuel : nat) :
  pages_ (g_page_cache w) !! (i, off) = None ->
  ¬ cache_full w ->
  get_block_device w i = Some d ->
  0 < sector_size_ (device w d) ->
  ∃ w',
    PageCache_read_page fuel i off w
      = Some (match (MemoryBlockDevice_read (device w d)
                       (off / sector_size_ (device w d)) PAGE_SIZE).1 with
              | Ok _ => Ok (next_page w)
              | Err e => Err e
              end, w') ∧
    pages_ (g_page_cache w') !! (i, off) = Some (next_page w) ∧
    get_state w' (next_page w)
      = (match (MemoryBlockDevice_read (device w d)
                  (off / sector_size_ (device w d)) PAGE_SIZE).1 with
         | Ok _ => UPTODATE
         | Err _ => ERROR
         end) ∧
    data_ (page w' (next_page w))
      = memcpy (repeat 0 (Z.to_nat PAGE_SIZE)) 0
          (MemoryBlockDevice_read (device w d)
             (off / sector_size_ (device w d)) PAGE_SIZE).2 ∧
    devices w' = devices w.
Proof.
  intros Hmiss Hroom Hdev _.
  destruct (MemoryBlockDevice_read (device w d) (off / sector_size_ (device w d)) PAGE_SIZE)
    as [r bytes] eqn:Hread.
  set (w1 := (install_page (i, off) (on_cache incr_misses w)).2).
  assert (Hfind : PageCache_find_or_create_page fuel i off w = Some (next_page w, w1)).
  { unfold PageCache_find_or_create_page, PageCache_find_page_locked. cbv zeta.
    rewrite Hmiss. unfold PageCache_allocate_page. unfold cache_full in Hroom.
    change (max_pages_ (g_page_cache (on_cache incr_misses w)))
      with (max_pages_ (g_page_cache w)).
    change (current_pages_ (g_page_cache (on_cache incr_misses w)))
      with (current_pages_ (g_page_cache w)).
    by destruct (Z.leb_spec (max_pages_ (g_page_cache w)) (current_pages_ (g_page_cache w))). }
  destruct (install_page_spec (i, off) (on_cache incr_misses w)) as (_ & Hpage & Hidx).
  change (next_page (on_cache incr_misses w)) with (next_page w) in Hpage, Hidx.
  fold w1 in Hpage, Hidx.
  destruct (read_page_fill fuel i off w w1 (next_page w) d r bytes Hfind)
    as (w' & Hrun & Hst & Hdata & Hcache & Hdevs & _).
  - unfold get_state. by rewrite Hpage.
  - unfold get_state. by rewrite Hpage.
  - exact Hdev.
  - exact Hread.
  - exists w'. simpl. split; [exact Hrun|]. split; [by rewrite Hcache|].
    split; [exact Hst|]. split; [by rewrite Hdata, Hpage|]. exact Hdevs.
Qed.

Lemma read_page_miss_witness :
  pages_ (g_page_cache fresh_world) !! (0%nat, 8192) = None ∧
  ¬ cache_full fresh_world ∧
  get_block_device fresh_world 0%nat = Some 0%nat ∧
  0 < sector_size_ (device fresh_world 0%nat) ∧
  ∃ w', PageCache_read_page 0 0%nat 8192 fresh_world = Some (Err FS_EINVAL, w') ∧
        pages_ (g_page_cache w') !! (0%nat, 8192) = Some 0%nat ∧
        get_state w' 0%nat = ERROR.
Proof.
  assert (Hroom : ¬ cache_full fresh_world) by (vm_compute; intros H; apply H; reflexivity).
  split; [reflexivity|]. split; [exact Hroom|]. split; [reflexivity|].
  split; [reflexivity|].
  destruct (read_page_miss fresh_world 0%nat 8192 0%nat 0)
    as (w' & Hrun & Hidx & Hst & _); [reflexivity | exact Hroom | reflexivity | reflexivity |].
  exists w'. split; [exact Hrun|]. split; [exact Hidx | exact Hst].
Defined.

(** X15. [read_page] on a cached page that is DIRTY reads the device again:
    the bytes read replace the start of the buffer, the page becomes UPTODATE
    and nothing is written back, so what had been modified there is gone. *)
Theorem read_page_reloads_dirty_page (w : World) (i : inode_id) (off : Z) (p : page_id)
  (d : device_id) (n : Z) (bytes : list Z) (fuel : nat) :
  pages_ (g_page_cache w) !! (i, off) = Some p ->
  get_state w p = DIRTY ->
  get_block_device w i = Some d ->
  0 < sector_size_ (device w d) ->
  MemoryBlockDevice_read (device w d) (off / sector_size_ (device w d)) PAGE_SIZE
    = (Ok n, bytes) ->
  ∃ w', PageCache_read_page fuel i off w = Some (Ok p, w') ∧
        get_state w' p = UPTODATE ∧
        data_ (page w' p) = memcpy (data_ (page w p)) 0 bytes ∧
        devices w' = devices w.
Proof.
  intros Hidx Hd Hdev _ Hread.
  set (w1 := on_cache incr_hits (PageCache_update_lru p w)).
  assert (Hpage : page w1 p = page w p).
  { unfold w1, PageCache_update_lru. by destruct (in_lru_ (page w p)). }
  assert (Hdevs : devices w1 = devices w).
  { unfold w1, PageCache_update_lru. by destruct (in_lru_ (page w p)). }
  assert (Hino : inodes w1 = inodes w).
  { unfold w1, PageCache_update_lru. by destruct (in_lru_ (page w p)). }
  assert (Hfind : PageCache_find_or_create_page fuel i off w = Some (p, w1)).
  { unfold PageCache_find_or_create_page, PageCache_find_page_locked. cbv zeta.
    by rewrite Hidx. }
  destruct (read_page_fill fuel i off w w1 p d (Ok n) bytes Hfind)
    as (w' & Hrun & Hst & Hdata & _ & Hdevs' & _).
  - unfold get_state. rewrite Hpage. fold (get_state w p). rewrite Hd. discriminate.
  - unfold get_state. rewrite Hpage. fold (get_state w p). rewrite Hd. discriminate.
  - unfold get_block_device, inode. by rewrite Hino.
  - unfold device. by rewrite Hdevs.
  - exists w'. split; [exact Hrun|]. split; [exact Hst|].
    split; [by rewrite Hdata, Hpage | by rewrite Hdevs'].
Qed.

Lemma read_page_reloads_dirty_page_witness :
  pages_ (g_page_cache (one_page_world blank_device DIRTY 1 8)) !! (0%nat, 0) = Some 0%nat ∧
  get_state (one_page_world blank_device DIRTY 1 8) 0%nat = DIRTY ∧
  ∃ w', PageCache_read_page 0 0%nat 0 (one_page_world blank_device DIRTY 1 8)
          = Some (Ok 0%nat, w') ∧
        get_state w' 0%nat = UPTODATE.
Proof.
  split; [reflexivity|]. split; [reflexivity|].
  destruct (read_page_reloads_dirty_page (one_page_world blank_device DIRTY 1 8)
              0%nat 0 0%nat 0%nat 4096 (repeat 0 (Z.to_nat 4096)) 0)
    as (w' & Hrun & Hst & _);
    [reflexivity | reflexivity | reflexivity | reflexivity | vm_compute; reflexivity |].
  exists w'. split; [exact Hrun | exact Hst].
Defined.

(** X16. [read_page] on a cached page that is UPTODATE returns it at once: no
    device is read or changed and no page of the store is touched. *)
Theorem read_page_hit_uptodate (w : World) (i : inode_id) (off : Z) (p : page_id)
  (fuel : nat) :
  pages_ (g_page_cache w) !! (i, off) = Some p ->
  get_state w p = UPTODATE ->
  ∃ w', PageCache_read_page fuel i off w = Some (Ok p, w') ∧
        heap w' = heap w ∧ devices w' = devices w ∧
        pages_ (g_page_cache w') = pages_ (g_page_cache w).
Proof.
  intros Hidx Hup.
  exists (on_cache incr_hits (PageCache_update_lru p w)).
  unfold PageCache_read_page, PageCache_find_or_create_page, PageCache_find_page_locked.
  cbv zeta. rewrite Hidx.
  assert (Hpage : page (on_cache incr_hits (PageCache_update_lru p w)) p = page w p).
  { unfold PageCache_update_lru. by destruct (in_lru_ (page w p)). }
  unfold is_uptodate, get_state. rewrite Hpage. fold (get_state w p).
  rewrite bool_decide_eq_true_2 by exact Hup.
  unfold PageCache_update_lru. by destruct (in_lru_ (page w p)).
Qed.

Lemma read_page_hit_uptodate_witness :
  pages_ (g_page_cache two_page_world) !! (0%nat, 4096) = Some 1%nat ∧
  get_state two_page_world 1%nat = UPTODATE ∧
  ∃ w', PageCache_read_page 0 0%nat 4096 two_page_world = Some (Ok 1%nat, w') ∧
        heap w' = heap two_page_world ∧ devices w' = devices two_page_world ∧
        pages_ (g_page_cache w') = pages_ (g_page_cache two_page_world).
Proof.
  split; [vm_compute; reflexivity|]. split; [vm_compute; reflexivity|].
  apply (read_page_hit_uptodate two_page_world 0%nat 4096 1%nat 0); vm_compute; reflexivity.
Defined.

(** ** Dropping references and invalidating *)



Lemma invalidate_entry_frame (q : page_id) (w : World) :
  devices (invalidate_entry q w) = devices w ∧
  inodes (invalidate_entry q w) = inodes w ∧
  ∀ p, state_ (page (invalidate_entry q w) p) = state_ (page w p) ∧
       data_ (page (invalidate_entry q w) p) = data_ (page w p).
Proof.
  unfold invalidate_entry. cbv zeta.
  assert (H1 : devices (PageCache_remove_from_lru q w) = devices w ∧
               inodes (PageCache_remove_from_lru q w) = inodes w ∧
               ∀ p, state_ (page (PageCache_remove_from_lru q w) p) = state_ (page w p) ∧
                    data_ (page (PageCache_remove_from_lru q w) p) = data_ (page w p)).
  { unfold PageCache_remove_from_lru. destruct (in_lru_ (page w q)); [|done].
    split; [done|]. split; [done|]. intros p.
    destruct (decide (q = p)) as [<-|Hne].
    - by rewrite page_update_page_eq.
    - by rewrite page_update_page_ne. }
  destruct (is_dirty (PageCache_remove_from_lru q w) q); exact H1.
Qed.

Lemma invalidate_entries_frame (l : list (nat * Z * nat)) :
  ∀ w, devices (foldl (fun w' kv => invalidate_entry kv.2 w') w l) = devices w ∧
       inodes (foldl (fun w' kv => invalidate_entry kv.2 w') w l) = inodes w ∧
       ∀ p, state_ (page (foldl (fun w' kv => invalidate_entry kv.2 w') w l) p)
              = state_ (page w p) ∧
            data_ (page (foldl (fun w' kv => invalidate_entry kv.2 w') w l) p)
              = data_ (page w p).
Proof.
  induction l as [|kv l IH]; intros w; [done|]. simpl.
  destruct (IH (invalidate_entry kv.2 w)) as (Hd & Hi & Hp).
  destruct (invalidate_entry_frame kv.2 w) as (Hd' & Hi' & Hp').
  split; [congruence|]. split; [congruence|]. intros p.
  destruct (Hp p) as [-> ->]. apply Hp'.
Qed.

(** X18. [invalidate_pages(inode)] erases from the index the entries of that
    inode, all of them and no other, and writes nothing: every device is as
    before and every page, the DIRTY ones included, keeps its state and its
    buffer. *)
Theorem invalidate_pages_exact (i : inode_id) (w : World) :
  (∀ j off, pages_ (g_page_cache (PageCache_invalidate_pages i w)) !! (j, off)
            = if decide (j = i) then None else pages_ (g_page_cache w) !! (j, off)) ∧
  devices (PageCache_invalidate_pages i w) = devices w ∧
  ∀ p, get_state (PageCache_invalidate_pages i w) p = get_state w p ∧
       data_ (page (PageCache_invalidate_pages i w) p) = data_ (page w p).
Proof.
  split; [|split].
  - intros j off. case_decide as Hj.
    + subst j. apply invalidate_pages_drops_every_page.
    + apply invalidate_pages_frame. congruence.
  - unfold PageCache_invalidate_pages. cbv zeta. simpl. apply invalidate_entries_frame.
  - intros p. unfold PageCache_invalidate_pages, get_state. cbv zeta.
    change (page (on_cache ?f ?x) p) with (page x p). apply invalidate_entries_frame.
Qed.

(** ** Inodes: end of file *)

Lemma inodes_invalidate_pages (i : inode_id) (w : World) :
  inodes (PageCache_invalidate_pages i w) = inodes w.
Proof.
  unfold PageCache_invalidate_pages. cbv zeta.
  change (inodes (on_cache ?f ?x)) with (inodes x). apply invalidate_entries_frame.
Qed.

Lemma inode_after_truncate (i : inode_id) (size now : Z) (w : World) :
  get_inode_size (Inode_truncate i size now w).2 i = size ∧
  ops_ (inode (Inode_truncate i size now w).2 i) = ops_ (inode w i).
Proof.
  unfold Inode_truncate. destruct (Z.eqb_spec size (get_inode_size w i)) as [->|Hne]; [done|].
  set (w1 := if size <? get_inode_size w i then PageCache_invalidate_pages i w else w).
  assert (Hino : inode w1 i = inode w i).
  { unfold inode, w1. destruct (size <? _); [|done]. by rewrite inodes_invalidate_pages. }
  unfold get_inode_size, inode, update_inode. simpl.
  rewrite lookup_total_insert_eq. fold (inode w1 i). rewrite Hino. done.
Qed.

(** X19. After [truncate(n)], a read at any position at or past [n] returns
    0 bytes and changes nothing, not even the access time. *)
Theorem read_after_truncate_is_eof (w : World) (i : inode_id) (n now pos size now' : Z)
  (fuel : nat) :
  ops_ (inode w i) = true ->
  n <= pos ->
  Inode_read fuel i pos size now' (Inode_truncate i n now w).2
    = Some (Ok 0, [], (Inode_truncate i n now w).2).
Proof.
  intros Hops Hpos. destruct (inode_after_truncate i n now w) as [Hsz Hops'].
  unfold Inode_read. rewrite Hops', Hops, Hsz. simpl.
  by destruct (Z.leb_spec n pos); [|lia].
Qed.

Lemma read_after_truncate_is_eof_witness :
  ops_ (inode two_page_world 0%nat) = true ∧
  4097 <= 5000 ∧
  Inode_read 0 0%nat 5000 100 11 (Inode_truncate 0%nat 4097 9 two_page_world).2
    = Some (Ok 0, [], (Inode_truncate 0%nat 4097 9 two_page_world).2).
Proof.
  split; [vm_compute; reflexivity|]. split; [lia|].
  apply (read_after_truncate_is_eof two_page_world 0%nat 4097 9 5000 100 11 0);
    [vm_compute; reflexivity | lia].
Defined.

(** ** Inodes: page offsets *)

(** Both masks of the read and write loops lie below bit 32, the mask of the
    page offset because [~(PAGE_SIZE - 1)] is computed in [u32]. *)
Lemma land_low_mask (x m : Z) :
  m = Z.land (Z.ones 32) m ->
  Z.land (wrap64 (x + 2 ^ 32)) m = Z.land (wrap64 x) m.
Proof.
  intros Hm. rewrite Hm, !Z.land_assoc, !Z.land_ones by lia. f_equal.
  unfold wrap64.
  rewrite !(Z.mod_mod_divide _ (2 ^ 64) (2 ^ 32)) by (exists (2 ^ 32); lia).
  replace (x + 2 ^ 32) with (x + 1 * 2 ^ 32) by lia. apply Z_mod_plus_full.
Qed.

Lemma page_offset_alias (x : Z) :
  Z.land (wrap64 (x + 2 ^ 32)) PAGE_MASK = Z.land (wrap64 x) PAGE_MASK ∧
  Z.land (wrap64 (x + 2 ^ 32)) (PAGE_SIZE - 1) = Z.land (wrap64 x) (PAGE_SIZE - 1).
Proof. split; apply land_low_mask; reflexivity. Qed.

Lemma read_loop_alias (fuel : nat) :
  ∀ (i : inode_id) (pos actual_size bytes_read : Z) (buf : list Z) (w : World),
    Inode_read_loop fuel i (pos + 2 ^ 32) actual_size bytes_read buf w
    = Inode_read_loop fuel i pos actual_size bytes_read buf w.
Proof.
  induction fuel as [|fuel IH]; intros i pos actual_size bytes_read buf w; [reflexivity|].
  cbn [Inode_read_loop].
  replace (pos + 2 ^ 32 + bytes_read) with (pos + bytes_read + 2 ^ 32) by lia.
  destruct (page_offset_alias (pos + bytes_read)) as [-> ->].
  destruct (bytes_read <? actual_size); [|reflexivity].
  destruct (PageCache_read_page fuel i _ w) as [[[p|e] w1]|]; try reflexivity.
  apply IH.
Qed.

Lemma write_loop_alias (fuel : nat) :
  ∀ (i : inode_id) (pos : Z) (buffer : list Z) (size bytes_written : Z) (w : World),
    Inode_write_loop fuel i (pos + 2 ^ 32) buffer size bytes_written w
    = Inode_write_loop fuel i pos buffer size bytes_written w.
Proof.
  induction fuel as [|fuel IH]; intros i pos buffer size bytes_written w; [reflexivity|].
  cbn [Inode_write_loop].
  replace (pos + 2 ^ 32 + bytes_written) with (pos + bytes_written + 2 ^ 32) by lia.
  destruct (page_offset_alias (pos + bytes_written)) as [-> ->].
  destruct (bytes_written <? size); [|reflexivity].
  destruct (PageCache_find_or_create_page fuel i _ w) as [[p w1]|]; [|reflexivity].
  cbv zeta.
  destruct (if negb _ || negb _ then _ else _) as [[[q|e] w2]|]; try reflexivity.
  apply IH.
Qed.

(** X20. The page offset of the read and write loops keeps the low 32 bits of
    the position only: started 4 GiB further into the file, either loop asks
    the cache for the same pages at the same offsets and does exactly what it
    does from the position itself. *)
Theorem page_offset_wraps_at_4GiB (fuel : nat) (i : inode_id) (pos : Z) (w : World) :
  (∀ actual_size bytes_read buf,
     Inode_read_loop fuel i (pos + 2 ^ 32) actual_size bytes_read buf w
     = Inode_read_loop fuel i pos actual_size bytes_read buf w) ∧
  (∀ buffer size bytes_written,
     Inode_write_loop fuel i (pos + 2 ^ 32) buffer size bytes_written w
     = Inode_write_loop fuel i pos buffer size bytes_written w).
Proof.
  split; intros; [apply read_loop_alias | apply write_loop_alias].
Qed.

(** ** File descriptor table *)

Section FdTable.
Variable t : FileDescriptorTable.
Hypothesis Hsize : Z.of_nat (length (files_ t)) < 2 ^ 31.

Lemma cast_int_size : cast_int (Z.of_nat (length (files_ t))) = Z.of_nat (length (files_ t)).
Proof.
  unfold cast_int. rewrite Z.mod_small by lia.
  by destruct (Z.ltb_spec (Z.of_nat (length (files_ t))) (2 ^ 31)); [|lia].
Qed.

Lemma cast_int_index (i : nat) :
  (i < length (files_ t))%nat -> cast_int (Z.of_nat i) = Z.of_nat i.
Proof.
  intros Hi. unfold cast_int. rewrite Z.mod_small by lia.
  by destruct (Z.ltb_spec (Z.of_nat i) (2 ^ 31)); [|lia].
Qed.

Lemma is_valid_fd_spec (fd : Z) :
  is_valid_fd t fd = true ↔ 0 <= fd < Z.of_nat (length (files_ t)).
Proof.
  unfold is_valid_fd. rewrite cast_int_size, andb_true_iff, Z.leb_le, Z.ltb_lt. done.
Qed.

(** What [get_file] sees after [files_[i] = v]. *)
Lemma get_file_insert (i : nat) (v : option nat) (fd : Z) :
  (i < length (files_ t))%nat ->
  FileDescriptorTable_get_file (mkFileDescriptorTable (<[i := v]> (files_ t))) fd
  = if decide (fd = Z.of_nat i) then v else FileDescriptorTable_get_file t fd.
Proof.
  intros Hi. unfold FileDescriptorTable_get_file, is_valid_fd, slot. simpl.
  rewrite length_insert, cast_int_size.
  destruct (Z.leb_spec 0 fd) as [Hge|Hlt]; simpl.
  - destruct (Z.ltb_spec fd (Z.of_nat (length (files_ t)))) as [Hin|Hout]; simpl.
    + case_decide as Heq.
      * subst fd. rewrite Nat2Z.id, list_lookup_insert_eq by done. done.
      * rewrite list_lookup_insert_ne by lia. done.
    + rewrite decide_False by lia. done.
  - rewrite decide_False by lia. done.
Qed.

Lemma first_free_Some (i : nat) :
  first_free t = Some i ->
  (i < length (files_ t))%nat ∧ files_ t !! i = Some None ∧
  ∀ j, (j < i)%nat -> ∃ f, files_ t !! j = Some (Some f).
Proof.
  unfold first_free. destruct (list_find _ (files_ t)) as [[i' x]|] eqn:Hfind; [|discriminate].
  intros [= <-]. apply list_find_Some in Hfind as (Hi & -> & Hlow).
  split; [by apply lookup_lt_Some in Hi|]. split; [done|].
  intros j Hj. destruct (lookup_lt_is_Some_2 (files_ t) j) as [y Hy].
  { apply lookup_lt_Some in Hi. lia. }
  destruct y as [f|]; [by exists f|]. by destruct (Hlow j None Hy Hj).
Qed.

Lemma first_free_None :
  first_free t = None -> ∀ j y, files_ t !! j = Some y -> ∃ f, y = Some f.
Proof.
  unfold first_free. destruct (list_find _ (files_ t)) as [[i' x]|] eqn:Hfind; [discriminate|].
  intros _ j y Hy. apply list_find_None in Hfind. rewrite Forall_forall in Hfind.
  destruct y as [f|]; [by exists f|].
  destruct (Hfind None); [|done]. by apply list_elem_of_lookup_2 in Hy.
Qed.

Lemma get_file_index (i : nat) (y : option nat) :
  files_ t !! i = Some y -> FileDescriptorTable_get_file t (Z.of_nat i) = y.
Proof.
  intros Hy. unfold FileDescriptorTable_get_file.
  rewrite (proj2 (is_valid_fd_spec (Z.of_nat i))) by (apply lookup_lt_Some in Hy; lia).
  simpl. unfold slot. by rewrite Nat2Z.id, Hy.
Qed.

Lemma get_file_valid (fd : Z) :
  is_valid_fd t fd = true ->
  ∃ y, files_ t !! Z.to_nat fd = Some y ∧ FileDescriptorTable_get_file t fd = y.
Proof.
  intros Hv. pose proof (proj1 (is_valid_fd_spec fd) Hv) as Hr.
  destruct (lookup_lt_is_Some_2 (files_ t) (Z.to_nat fd)) as [y Hy]; [lia|].
  exists y. split; [done|]. rewrite <- (Z2Nat.id fd) by lia. by apply get_file_index.
Qed.

(** X21. [alloc_fd] hands out the lowest free descriptor: every lower one is
    open, the one returned was free and now names the file, every other
    descriptor names what it named, and [get_next_fd] announced it.  With no
    free descriptor it fails with the out-of-memory error, changes nothing, and
    [get_next_fd] is -1. *)
Theorem alloc_fd_lowest_free (file : option nat) :
  match FileDescriptorTable_alloc_fd t file with
  | (Ok fd, t') =>
      is_valid_fd t fd = true ∧
      FileDescriptorTable_get_file t fd = None ∧
      (∀ fd', 0 <= fd' < fd -> FileDescriptorTable_get_file t fd' ≠ None) ∧
      FileDescriptorTable_get_file t' fd = file ∧
      (∀ fd', fd' ≠ fd ->
         FileDescriptorTable_get_file t' fd' = FileDescriptorTable_get_file t fd') ∧
      FileDescriptorTable_get_next_fd t = fd
  | (Err e, t') =>
      e = FS_ENOMEM ∧ t' = t ∧
      (∀ fd, is_valid_fd t fd = true -> FileDescriptorTable_get_file t fd ≠ None) ∧
      FileDescriptorTable_get_next_fd t = -1
  end.
Proof.
  unfold FileDescriptorTable_alloc_fd, FileDescriptorTable_get_next_fd.
  destruct (first_free t) as [i|] eqn:Hfree.
  - destruct (first_free_Some i Hfree) as (Hi & Hnone & Hlow).
    rewrite cast_int_index by done.
    split; [apply is_valid_fd_spec; lia|].
    split; [by apply get_file_index|]. split.
    { intros fd' Hfd'. destruct (Hlow (Z.to_nat fd')) as [f Hf]; [lia|].
      rewrite <- (Z2Nat.id fd') by lia. by rewrite (get_file_index _ _ Hf). }
    split; [by rewrite get_file_insert, decide_True|]. split; [|done].
    intros fd' Hne. by rewrite get_file_insert, decide_False.
  - split; [done|]. split; [done|]. split; [|done].
    intros fd Hv. destruct (get_file_valid fd Hv) as (y & Hy & ->).
    by destruct (first_free_None Hfree _ _ Hy) as [f ->].
Qed.



(** X24. A successful [dup2_fd] returns [newfd], which then names the file
    [oldfd] names, whatever it named before; no other descriptor changes, and
    [oldfd] was open. *)
Theorem dup2_fd_redirects (oldfd newfd r : Z) (t' : FileDescriptorTable) :
  FileDescriptorTable_dup2_fd t oldfd newfd = (Ok r, t') ->
  r = newfd ∧
  FileDescriptorTable_get_file t oldfd ≠ None ∧
  FileDescriptorTable_get_file t' newfd = FileDescriptorTable_get_file t oldfd ∧
  ∀ fd', fd' ≠ newfd ->
    FileDescriptorTable_get_file t' fd' = FileDescriptorTable_get_file t fd'.
Proof.
  unfold FileDescriptorTable_dup2_fd. rewrite cast_int_size.
  destruct (is_valid_fd t oldfd) eqn:Hv; simpl; [|discriminate].
  destruct (Z.ltb_spec newfd 0) as [|Hge]; simpl; [discriminate|].
  destruct (Z.leb_spec (Z.of_nat (length (files_ t))) newfd) as [|Hlt]; [discriminate|].
  assert (Hget : FileDescriptorTable_get_file t oldfd = slot t oldfd).
  { unfold FileDescriptorTable_get_file. by rewrite Hv. }
  destruct (slot t oldfd) as [file|] eqn:Hslot; [|discriminate].
  intros [= <- <-]. split; [done|]. split; [by rewrite Hget|].
  assert (Hcleared : ∀ fd,
            FileDescriptorTable_get_file
              (mkFileDescriptorTable
                 (<[Z.to_nat newfd := Some file]>
                    match slot t newfd with
                    | Some _ => <[Z.to_nat newfd := None]> (files_ t)
                    | None => files_ t
                    end)) fd
            = if decide (fd = newfd) then Some file else FileDescriptorTable_get_file t fd).
  { intros fd. destruct (slot t newfd).
    - rewrite list_insert_insert_eq, get_file_insert by lia.
      by rewrite Z2Nat.id by lia.
    - rewrite get_file_insert by lia. by rewrite Z2Nat.id by lia. }
  split.
  - by rewrite Hcleared, decide_True, Hget.
  - intros fd' Hne. by rewrite Hcleared, decide_False.
Qed.
End FdTable.

Lemma small_table_size : Z.of_nat (length (files_ small_table)) < 2 ^ 31.
Proof. reflexivity. Defined.

Lemma alloc_fd_lowest_free_witness :
  Z.of_nat (length (files_ small_table)) < 2 ^ 31 ∧
  Z.of_nat (length (files_ full_table)) < 2 ^ 31 ∧
  FileDescriptorTable_alloc_fd small_table (Some 12%nat)
    = (Ok 2, mkFileDescriptorTable [Some 10%nat; Some 11%nat; Some 12%nat; None]) ∧
  FileDescriptorTable_get_next_fd small_table = 2 ∧
  FileDescriptorTable_alloc_fd full_table (Some 12%nat) = (Err FS_ENOMEM, full_table) ∧
  FileDescriptorTable_get_next_fd full_table = -1.
Proof.
  assert (Hfull : Z.of_nat (length (files_ full_table)) < 2 ^ 31) by reflexivity.
  split; [exact small_table_size|]. split; [exact Hfull|]. split; [reflexivity|].
  pose proof (alloc_fd_lowest_free small_table small_table_size (Some 12%nat)) as H1.
  pose proof (alloc_fd_lowest_free full_table Hfull (Some 12%nat)) as H2.
  simpl in H1, H2.
  destruct H1 as (_ & _ & _ & _ & _ & Hnext). destruct H2 as (_ & _ & _ & Hnone).
  split; [exact Hnext|]. split; [reflexivity | exact Hnone].
Defined.



Lemma dup2_fd_redirects_witness :
  Z.of_nat (length (files_ small_table)) < 2 ^ 31 ∧
  FileDescriptorTable_dup2_fd small_table 0 1
    = (Ok 1, mkFileDescriptorTable [Some 10%nat; Some 10%nat; None; None]) ∧
  FileDescriptorTable_get_file
    (mkFileDescriptorTable [Some 10%nat; Some 10%nat; None; None]) 1
  = FileDescriptorTable_get_file small_table 0.
Proof.
  split; [exact small_table_size|]. split; [reflexivity|].
  apply (dup2_fd_redirects small_table small_table_size 0 1 1
           (mkFileDescriptorTable [Some 10%nat; Some 10%nat; None; None])).
  reflexivity.
Defined.

(** ** Superblock: the inode cache *)

Section InodeCache.
Variable alive : nat -> bool.
Variable ino_of : nat -> Z.
Variable read_inode : Z -> Result nat.

(** X25. An inode entered with [cache_inode] is what [get_inode] returns for
    its number while the inode lives: the filesystem is not asked, and the
    superblock is left as it was. *)
Theorem cached_inode_is_returned (sb sb' : SuperBlock) (h : nat) :
  SuperBlock_cache_inode ino_of sb h = Some sb' ->
  alive h = true ->
  SuperBlock_get_inode alive ino_of read_inode sb' (ino_of h) = Some (Ok h, sb').
Proof.
  unfold SuperBlock_cache_inode, SuperBlock_get_inode, sb_lock.
  destruct (inode_cache_mutex_ sb); [discriminate|].
  intros [= <-] Halive. simpl. rewrite lookup_insert_eq, Halive. reflexivity.
Qed.

(** X26. [get_inode] for a number with no live entry in the cache, on a
    superblock with operations, when the filesystem reads the inode
    successfully: the inode is handed to [cache_inode] while [get_inode] still
    holds the mutex of the cache, [cache_inode] locks that mutex again, and
    the call never returns. *)
Theorem get_inode_miss_never_returns (sb : SuperBlock) (ino : Z) (h : nat) :
  inode_cache_mutex_ sb = false ->
  sb_ops_ sb = true ->
  (∀ h', inode_cache_ sb !! ino = Some h' -> alive h' = false) ->
  read_inode ino = Ok h ->
  SuperBlock_get_inode alive ino_of read_inode sb ino = None.
Proof.
  intros Hfree Hops Hdead Hread.
  unfold SuperBlock_get_inode, sb_lock. rewrite Hfree. simpl.
  destruct (inode_cache_ sb !! ino) as [h'|] eqn:Hc.
  - rewrite (Hdead h' eq_refl). simpl. rewrite Hops, Hread. reflexivity.
  - rewrite Hops. simpl. rewrite Hread. reflexivity.
Qed.

(** X27. The calls of [get_inode] that do return: without operations the
    result is the I/O error, and when the filesystem fails to read the inode
    its error is passed on; in both cases a dead entry for the number is
    dropped from the cache and the mutex is free again. *)
Theorem get_inode_miss_errors (sb : SuperBlock) (ino : Z) :
  inode_cache_mutex_ sb = false ->
  (∀ h', inode_cache_ sb !! ino = Some h' -> alive h' = false) ->
  (sb_ops_ sb = false ∨ ∃ e, read_inode ino = Err e) ->
  ∃ e sb', SuperBlock_get_inode alive ino_of read_inode sb ino = Some (Err e, sb') ∧
           (sb_ops_ sb = false -> e = FS_EIO) ∧
           (sb_ops_ sb = true -> read_inode ino = Err e) ∧
           inode_cache_ sb' = delete ino (inode_cache_ sb) ∧
           inode_cache_mutex_ sb' = false.
Proof.
  intros Hfree Hdead Hcase.
  unfold SuperBlock_get_inode, sb_lock. rewrite Hfree. simpl.
  assert (Hfound : match inode_cache_ sb !! ino with
                   | Some h => if alive h then Some h else None
                   | None => None
                   end = None).
  { destruct (inode_cache_ sb !! ino) as [h'|] eqn:Hc; [|done]. by rewrite (Hdead h'). }
  rewrite Hfound.
  set (sb2 := match inode_cache_ sb !! ino with Some _ => _ | None => _ end).
  assert (H2 : sb_ops_ sb2 = sb_ops_ sb ∧ inode_cache_ sb2 = delete ino (inode_cache_ sb)).
  { unfold sb2. destruct (inode_cache_ sb !! ino) eqn:Hc; simpl; [done|].
    split; [done|]. symmetry. by apply delete_id. }
  destruct H2 as [Hops2 Hcache2]. rewrite Hops2.
  destruct (sb_ops_ sb) eqn:Hops; simpl.
  - destruct Hcase as [|[e He]]; [discriminate|]. rewrite He.
    exists e, (sb_unlock sb2). repeat split; try done.
  - exists FS_EIO, (sb_unlock sb2). repeat split; try done.
Qed.
End InodeCache.

Lemma cached_inode_is_returned_witness :
  SuperBlock_cache_inode Z.of_nat empty_superblock 7%nat
    = Some (mkSuperBlock true {[ 7 := 7%nat ]} false) ∧
  SuperBlock_get_inode (fun _ => true) Z.of_nat (fun _ => Err FS_ENOENT)
    (mkSuperBlock true {[ 7 := 7%nat ]} false) 7
  = Some (Ok 7%nat, mkSuperBlock true {[ 7 := 7%nat ]} false).
Proof.
  split; [reflexivity|].
  apply (cached_inode_is_returned (fun _ => true) Z.of_nat (fun _ => Err FS_ENOENT)
           empty_superblock (mkSuperBlock true {[ 7 := 7%nat ]} false) 7%nat);
    reflexivity.
Defined.

Lemma get_inode_miss_never_returns_witness :
  inode_cache_mutex_ empty_superblock = false ∧
  sb_ops_ empty_superblock = true ∧
  SuperBlock_get_inode (fun _ => true) Z.of_nat (fun _ => Ok 7%nat) empty_superblock 7 = None.
Proof.
  split; [reflexivity|]. split; [reflexivity|].
  apply (get_inode_miss_never_returns (fun _ => true) Z.of_nat (fun _ => Ok 7%nat)
           empty_superblock 7 7%nat); try reflexivity.
  intros h' Hh'. vm_compute in Hh'. discriminate.
Defined.

Lemma get_inode_miss_errors_witness :
  inode_cache_mutex_ empty_superblock = false ∧
  ∃ e sb', SuperBlock_get_inode (fun _ => true) Z.of_nat (fun _ => Err FS_ENOENT)
             empty_superblock 7 = Some (Err e, sb') ∧
           (sb_ops_ empty_superblock = false -> e = FS_EIO) ∧
           (sb_ops_ empty_superblock = true -> Err (A := nat) FS_ENOENT = Err e) ∧
           inode_cache_ sb' = delete 7 (inode_cache_ empty_superblock) ∧
           inode_cache_mutex_ sb' = false.
Proof.
  split; [reflexivity|].
  apply (get_inode_miss_errors (fun _ => true) Z.of_nat (fun _ => Err FS_ENOENT)
           empty_superblock 7); [reflexivity | | right; by exists FS_ENOENT].
  intros h' Hh'. vm_compute in Hh'. discriminate.
Defined.

(** ** Files: the end after a truncation *)

(** X28. After [File::truncate(n)], [seek(0, END)] returns [n], and a read
    from there returns 0 bytes and leaves the position at [n]. *)
Theorem file_end_after_truncate (f : File) (i : inode_id) (n now size now' : Z)
  (w : World) (fuel : nat) :
  dentry_inode_ f = Some i ->
  ops_ (inode w i) = true ->
  0 <= n < 2 ^ 64 ->
  File_seek f 0 2 (File_truncate f n now w).2 = Some (Ok n, File_set_pos n f) ∧
  File_read fuel (File_set_pos n f) size now' (File_truncate f n now w).2
    = Some (Ok 0, [], File_set_pos n f, (File_truncate f n now w).2).
Proof.
  intros Hi Hops Hn. unfold File_truncate. rewrite Hi.
  destruct (inode_after_truncate i n now w) as [Hsz Hops'].
  split.
  - unfold File_seek. simpl. rewrite Hi, Hsz, Z.add_0_r, wrap64_small by exact Hn. done.
  - unfold File_read. simpl. rewrite Hi. unfold Inode_read.
    rewrite Hops', Hops, Hsz. simpl.
    destruct (Z.leb_spec n n); [|lia].
    unfold File_set_pos. simpl. by rewrite Z.add_0_r, wrap64_small by exact Hn.
Qed.

Lemma file_end_after_truncate_witness :
  dentry_inode_ open_file = Some 0%nat ∧
  ops_ (inode two_page_world 0%nat) = true ∧
  0 <= 4097 < 2 ^ 64 ∧
  File_seek open_file 0 2 (File_truncate open_file 4097 9 two_page_world).2
    = Some (Ok 4097, File_set_pos 4097 open_file).
Proof.
  split; [reflexivity|]. split; [vm_compute; reflexivity|]. split; [lia|].
  apply (file_end_after_truncate open_file 0%nat 4097 9 100 11 two_page_world 0);
    [reflexivity | vm_compute; reflexivity | lia].
Defined.

(** ** Inodes: a write on a cold cache *)

Lemma same_backing_refl (w : World) : same_backing w w.
Proof. by repeat split. Qed.

Lemma same_backing_trans (w1 w2 w3 : World) :
  same_backing w1 w2 -> same_backing w2 w3 -> same_backing w1 w3.
Proof. intros (? & ? & ?) (? & ? & ?). repeat split; congruence. Qed.

Section SolePage.
Variables (p : page_id) (key : nat * Z).

Lemma sole_page_update (f : Page -> Page) (w : World) :
  (∀ pg, ref_count_ (f pg) = ref_count_ pg ∧ in_lru_ (f pg) = in_lru_ pg ∧
         inode_ (f pg) = inode_ pg ∧ offset_ (f pg) = offset_ pg) ->
  sole_page p key w ->
  sole_page p key (update_page f p w) ∧ same_backing w (update_page f p w).
Proof.
  intros Hf (Hidx & Hlru & Hcur & Hrc & Hin & Hkey).
  destruct (Hf (page w p)) as (Hf1 & Hf2 & Hf3 & Hf4).
  split; [|by repeat split].
  unfold sole_page, key_of. rewrite page_update_page_eq, Hf1, Hf2, Hf3, Hf4.
  repeat split; done.
Qed.

Lemma sole_page_set_state (s : PageState) (w : World) :
  sole_page p key w -> sole_page p key (set_state p s w) ∧ same_backing w (set_state p s w).
Proof. intros H. apply sole_page_update; [|exact H]. intros pg. by repeat split. Qed.

Lemma sole_page_set_data (bytes : list Z) (w : World) :
  sole_page p key w ->
  sole_page p key (update_page (Page_set_data bytes) p w) ∧
  same_backing w (update_page (Page_set_data bytes) p w).
Proof. intros H. apply sole_page_update; [|exact H]. intros pg. by repeat split. Qed.

Lemma sole_page_unlock (w : World) :
  sole_page p key w -> sole_page p key (Page_unlock p w) ∧ same_backing w (Page_unlock p w).
Proof.
  intros H. unfold Page_unlock. case_decide; [by apply sole_page_set_state|].
  split; [exact H | apply same_backing_refl].
Qed.

Lemma sole_page_mark_dirty (w : World) :
  sole_page p key w ->
  sole_page p key (Page_mark_dirty p w) ∧ same_backing w (Page_mark_dirty p w).
Proof.
  intros H. unfold Page_mark_dirty. case_decide; [|split; [exact H | apply same_backing_refl]].
  destruct (sole_page_set_state DIRTY w H) as [Hs Hb]. split; [exact Hs | exact Hb].
Qed.

Lemma sole_page_hit (w : World) :
  sole_page p key w ->
  sole_page p key (on_cache incr_hits (PageCache_update_lru p w)) ∧
  same_backing w (on_cache incr_hits (PageCache_update_lru p w)) ∧
  page (on_cache incr_hits (PageCache_update_lru p w)) p = page w p.
Proof.
  intros (Hidx & Hlru & Hcur & Hrc & Hin & Hkey).
  unfold PageCache_update_lru. rewrite Hin.
  split; [|by repeat split].
  unfold sole_page, key_of. simpl. rewrite Hlru. simpl. rewrite decide_True by done.
  repeat split; done.
Qed.

(** Dropping the creator's reference empties the cache again. *)
Lemma sole_page_put (w : World) :
  sole_page p key w -> 0 < max_pages_ (g_page_cache w) ->
  cache_empty (Page_put p w) ∧ same_backing w (Page_put p w).
Proof.
  intros (Hidx & Hlru & Hcur & Hrc & Hin & Hkey) Hmax.
  set (w1 := update_page (Page_set_ref_count 0) p w).
  assert (Hp1 : page w1 p = Page_set_ref_count 0 (page w p))
    by (unfold w1; apply page_update_page_eq).
  assert (E : ∃ w3 l,
            Page_put p w
            = on_cache (fun c => set_current_pages (wrap64 (current_pages_ c - 1)) c) w3 ∧
            pages_ (g_page_cache w3) = delete key (pages_ (g_page_cache w)) ∧
            lru_list_ (g_page_cache w3) = list_erase p (lru_list_ (g_page_cache w)) ∧
            current_pages_ (g_page_cache w3) = current_pages_ (g_page_cache w) ∧
            same_backing w w3 ∧ dirty_list_ (g_page_cache w3) = l).
  { unfold Page_put, ref_count. rewrite Hrc. change (wrap32 (1 - 1)) with 0.
    change (0 =? 0) with true. cbv iota zeta. fold w1.
    unfold PageCache_release_page, ref_count. rewrite Hp1. simpl.
    fold (key_of w p). rewrite Hkey.
    unfold PageCache_remove_from_lru.
    change (page (on_cache ?f w1) p) with (page w1 p). rewrite Hp1. simpl. rewrite Hin.
    destruct (is_dirty _ p); eexists; eexists; (split; [reflexivity|]);
      repeat split; reflexivity. }
  destruct E as (w3 & l & -> & Hidx3 & Hlru3 & Hcur3 & (Hd3 & Hi3 & Hm3) & _).
  split.
  - unfold cache_empty. simpl. rewrite Hidx3, Hlru3, Hcur3, Hidx, Hlru, Hcur, Hm3.
    rewrite delete_singleton_eq. simpl. rewrite decide_True by done. done.
  - by repeat split.
Qed.
End SolePage.

Lemma cold_create (w : World) (i : inode_id) (off : Z) (fuel : nat) :
  cache_empty w ->
  ∃ w1, PageCache_find_or_create_page fuel i off w = Some (next_page w, w1) ∧
        sole_page (next_page w) (i, off) w1 ∧ same_backing w w1 ∧
        get_state w1 (next_page w) = CLEAN.
Proof.
  intros (Hidx & Hlru & Hcur & Hmax).
  exists (install_page (i, off) (on_cache incr_misses w)).2.
  destruct (install_page_spec (i, off) (on_cache incr_misses w)) as (_ & Hpage & _).
  change (next_page (on_cache incr_misses w)) with (next_page w) in Hpage.
  split; [|split; [|split]].
  - unfold PageCache_find_or_create_page, PageCache_find_page_locked. cbv zeta.
    rewrite Hidx, lookup_empty. unfold PageCache_allocate_page.
    change (max_pages_ (g_page_cache (on_cache incr_misses w)))
      with (max_pages_ (g_page_cache w)).
    change (current_pages_ (g_page_cache (on_cache incr_misses w)))
      with (current_pages_ (g_page_cache w)).
    rewrite Hcur. by destruct (Z.leb_spec (max_pages_ (g_page_cache w)) 0); [lia|].
  - unfold sole_page, key_of. rewrite Hpage.
    change (pages_ (g_page_cache (install_page (i, off) (on_cache incr_misses w)).2))
      with (<[(i, off) := next_page w]> (pages_ (g_page_cache w))).
    change (lru_list_ (g_page_cache (install_page (i, off) (on_cache incr_misses w)).2))
      with (next_page w :: lru_list_ (g_page_cache w)).
    change (current_pages_ (g_page_cache (install_page (i, off) (on_cache incr_misses w)).2))
      with (wrap64 (current_pages_ (g_page_cache w) + 1)).
    rewrite Hidx, Hlru, Hcur. repeat split; reflexivity.
  - repeat split; reflexivity.
  - unfold get_state. rewrite Hpage. reflexivity.
Qed.

Lemma sole_read_page (p : page_id) (i : inode_id) (off : Z) (w : World) (fuel : nat) :
  sole_page p (i, off) w ->
  get_state w p ≠ LOCKED ->
  ∃ r w2, PageCache_read_page fuel i off w = Some (r, w2) ∧
          sole_page p (i, off) w2 ∧ same_backing w w2.
Proof.
  intros Hsole Hlk.
  destruct (sole_page_hit p (i, off) w Hsole) as (H1 & B1 & Hpage).
  set (w1 := on_cache incr_hits (PageCache_update_lru p w)) in *.
  unfold PageCache_read_page, PageCache_find_or_create_page, PageCache_find_page_locked.
  cbv zeta. destruct Hsole as (Hidx & _). rewrite Hidx, lookup_singleton_eq. fold w1.
  destruct (is_uptodate w1 p); [by exists (Ok p), w1|].
  rewrite Page_lock_unlocked
    by (unfold get_state; rewrite Hpage; exact Hlk).
  destruct (sole_page_set_state p (i, off) LOCKED w1 H1) as [H2 B2].
  set (w2 := set_state p LOCKED w1) in *.
  assert (B12 : same_backing w w2) by exact (same_backing_trans _ _ _ B1 B2).
  destruct (is_uptodate w2 p).
  { destruct (sole_page_unlock p (i, off) w2 H2) as [H3 B3].
    eexists _, _. split; [reflexivity|]. split; [exact H3|].
    exact (same_backing_trans _ _ _ B12 B3). }
  destruct (get_block_device w2 i) as [d|].
  - destruct (MemoryBlockDevice_read _ _ _) as [result bytes].
    destruct (sole_page_set_data p (i, off) (memcpy (data_ (page w2 p)) 0 bytes) w2 H2)
      as [H3 B3].
    set (w3 := update_page _ p w2) in *.
    assert (B13 : same_backing w w3) by exact (same_backing_trans _ _ _ B12 B3).
    destruct result as [n|e].
    + destruct (sole_page_set_state p (i, off) UPTODATE w3 H3) as [H4 B4].
      destruct (sole_page_unlock p (i, off) _ H4) as [H5 B5].
      eexists _, _. split; [reflexivity|]. split; [exact H5|].
      exact (same_backing_trans _ _ _ B13 (same_backing_trans _ _ _ B4 B5)).
    + destruct (sole_page_set_state p (i, off) ERROR w3 H3) as [H4 B4].
      destruct (sole_page_unlock p (i, off) _ H4) as [H5 B5].
      eexists _, _. split; [reflexivity|]. split; [exact H5|].
      exact (same_backing_trans _ _ _ B13 (same_backing_trans _ _ _ B4 B5)).
  - destruct (sole_page_unlock p (i, off) w2 H2) as [H3 B3].
    eexists _, _. split; [reflexivity|]. split; [exact H3|].
    exact (same_backing_trans _ _ _ B12 B3).
Qed.

Lemma page_pos_bound (x : Z) : 0 <= Z.land x (PAGE_SIZE - 1) < PAGE_SIZE.
Proof.
  change (PAGE_SIZE - 1) with (Z.ones 12). rewrite Z.land_ones by lia.
  change PAGE_SIZE with (2 ^ 12). apply Z.mod_pos_bound. lia.
Qed.

Lemma write_loop_cold (i : inode_id) (pos : Z) (buffer : list Z) (size : Z) (fuel : nat) :
  ∀ (bytes_written : Z) (w : World),
    cache_empty w ->
    0 <= bytes_written <= size ->
    (Z.to_nat (size - bytes_written) < fuel)%nat ->
    ∃ r w', Inode_write_loop fuel i pos buffer size bytes_written w = Some (r, w') ∧
            cache_empty w' ∧ same_backing w w' ∧ ∀ n, r = Ok n -> n = size.
Proof.
  induction fuel as [|fuel IH]; intros bw w Hempty Hbw Hfuel; [lia|].
  cbn [Inode_write_loop].
  destruct (Z.ltb_spec bw size) as [Hlt|Hge].
  - cbv zeta.
    set (page_offset := Z.land (wrap64 (pos + bw)) PAGE_MASK).
    pose proof (page_pos_bound (wrap64 (pos + bw))) as Hpp.
    set (page_pos := Z.land (wrap64 (pos + bw)) (PAGE_SIZE - 1)) in *.
    set (page_bytes := Z.min (size - bw) (PAGE_SIZE - page_pos)).
    destruct (cold_create w i page_offset fuel Hempty) as (w1 & -> & Hsole & B1 & Hclean).
    set (p := next_page w) in *.
    assert (Hfilled : ∃ r2 w2,
              (if negb (page_pos =? 0) || negb (page_bytes =? PAGE_SIZE)
               then if is_uptodate w1 p then Some (Ok p, w1)
                    else PageCache_read_page fuel i page_offset w1
               else Some (Ok p, w1)) = Some (r2, w2) ∧
              sole_page p (i, page_offset) w2 ∧ same_backing w1 w2).
    { destruct (negb (page_pos =? 0) || negb (page_bytes =? PAGE_SIZE));
        [|exists (Ok p), w1; split; [done|]; split; [done | apply same_backing_refl]].
      destruct (is_uptodate w1 p);
        [exists (Ok p), w1; split; [done|]; split; [done | apply same_backing_refl]|].
      apply sole_read_page; [exact Hsole|]. rewrite Hclean. discriminate. }
    destruct Hfilled as (r2 & w2 & -> & Hsole2 & B2).
    assert (B02 : same_backing w w2) by exact (same_backing_trans _ _ _ B1 B2).
    assert (Hmax2 : 0 < max_pages_ (g_page_cache w2)).
    { destruct B02 as (_ & _ & ->). apply Hempty. }
    destruct r2 as [q|e].
    + set (chunk := slice buffer (Z.to_nat bw) (Z.to_nat page_bytes)).
      destruct (sole_page_set_data p (i, page_offset)
                  (memcpy (data_ (page w2 p)) (Z.to_nat page_pos) chunk) w2 Hsole2)
        as [H3 B3].
      set (w3 := update_page _ p w2) in *.
      destruct (sole_page_mark_dirty p (i, page_offset) w3 H3) as [H4 B4].
      assert (B04 : same_backing w (Page_mark_dirty p w3)).
      { exact (same_backing_trans _ _ _ B02 (same_backing_trans _ _ _ B3 B4)). }
      destruct (sole_page_put p (i, page_offset) (Page_mark_dirty p w3) H4) as [H5 B5].
      { destruct B04 as (_ & _ & ->). apply Hempty. }
      destruct (IH (bw + page_bytes) (Page_put p (Page_mark_dirty p w3)) H5)
        as (r & w' & Hrun & Hempty' & B' & Hn); [unfold page_bytes; lia | unfold page_bytes; lia |].
      exists r, w'. split; [exact Hrun|]. split; [exact Hempty'|]. split; [|exact Hn].
      exact (same_backing_trans _ _ _ B04 (same_backing_trans _ _ _ B5 B')).
    + destruct (sole_page_put p (i, page_offset) w2 Hsole2 Hmax2) as [H5 B5].
      exists (Err e), (Page_put p w2). split; [done|]. split; [exact H5|].
      split; [exact (same_backing_trans _ _ _ B02 B5) | discriminate].
  - exists (Ok bw), w. split; [done|]. split; [exact Hempty|].
    split; [apply same_backing_refl|]. intros n [= <-]. lia.
Qed.

(** X29. A write through an inode whose cache is empty never reaches a
    device.  It returns; every device is what it was and the cache is empty
    again, the pages written having been released with the reference the loop
    drops; and when the result is success the count is the [size] asked for and
    the size of the file is the larger of the old size and [pos + size]. *)
Theorem cold_write_never_reaches_device (w : World) (i : inode_id) (pos : Z)
  (buffer : list Z) (size now : Z) (fuel : nat) :
  cache_empty w ->
  ops_ (inode w i) = true ->
  is_writable (attr_mode (attr_ (inode w i))) = true ->
  0 <= size ->
  (Z.to_nat size < fuel)%nat ->
  ∃ r w', Inode_write fuel i pos buffer size now w = Some (r, w') ∧
          devices w' = devices w ∧
          cache_empty w' ∧
          ∀ n, r = Ok n ->
               n = size ∧
               get_inode_size w' i = Z.max (get_inode_size w i) (wrap64 (pos + size)).
Proof.
  intros Hempty Hops Hwr Hsize Hfuel. unfold Inode_write. rewrite Hops, Hwr. simpl.
  destruct (write_loop_cold i pos buffer size fuel 0 w Hempty)
    as (r & w1 & -> & Hempty1 & (Hd & Hi & Hm) & Hn); [lia | lia |].
  destruct r as [n|e].
  - rewrite (Hn n eq_refl). eexists _, _. split; [reflexivity|].
    split; [exact Hd|]. split; [exact Hempty1|]. intros n' [= <-]. split; [done|].
    assert (Hsz : get_inode_size w1 i = get_inode_size w i)
      by (unfold get_inode_size, inode; by rewrite Hi).
    unfold get_inode_size at 1, inode, update_inode. simpl.
    rewrite lookup_total_insert_eq. simpl. rewrite Hsz.
    destruct (Z.ltb_spec (get_inode_size w i) (wrap64 (pos + size))); lia.
  - exists (Err e), w1. split; [done|]. split; [exact Hd|]. split; [exact Hempty1|].
    discriminate.
Qed.

Lemma fresh_world_empty : cache_empty fresh_world.
Proof. repeat split. Qed.

Lemma cold_write_never_reaches_device_witness :
  cache_empty fresh_world ∧
  ops_ (inode fresh_world 0%nat) = true ∧
  is_writable (attr_mode (attr_ (inode fresh_world 0%nat))) = true ∧
  0 <= 1 ∧ (Z.to_nat 1 < 5)%nat ∧
  ∃ r w', Inode_write 5 0%nat 0 [65] 1 7 fresh_world = Some (r, w') ∧
          devices w' = devices fresh_world ∧
          cache_empty w' ∧
          ∀ n, r = Ok n ->
               n = 1 ∧
               get_inode_size w' 0%nat
               = Z.max (get_inode_size fresh_world 0%nat) (wrap64 (0 + 1)).
Proof.
  split; [exact fresh_world_empty|]. split; [reflexivity|]. split; [reflexivity|].
  split; [lia|]. split; [simpl; lia|].
  apply (cold_write_never_reaches_device fresh_world 0%nat 0 [65] 1 7 5);
    [exact fresh_world_empty | reflexivity | reflexivity | lia | simpl; lia].
Defined.

(** ** Tearing the cache down *)

(** X30. The destructor of the cache, run by a single thread, returns with
    the index, the LRU list and the dirty list empty and the page count 0, and
    it writes nothing: every device is what it was and every buffer, those of
    the dirty pages included, is what it was. *)
Theorem cache_destructor_writes_nothing (w : World) :
  ∃ w', PageCache_destructor w = Some w' ∧
        devices w' = devices w ∧
        pages_ (g_page_cache w') = ∅ ∧
        lru_list_ (g_page_cache w') = [] ∧
        dirty_list_ (g_page_cache w') = [] ∧
        current_pages_ (g_page_cache w') = 0 ∧
        ∀ p, data_ (page w' p) = data_ (page w p).
Proof.
  unfold PageCache_destructor, PageCache_sync_pages.
  set (l := filter _ (dirty_list_ (g_page_cache w))).
  destruct (sync_loop_effect l w) as (w1 & -> & _ & Hdev & Hpages).
  { apply Forall_forall. intros p Hp. apply list_elem_of_filter in Hp as [[_ Hd] _].
    rewrite Hd. discriminate. }
  exists (PageCache_clear w1). split; [done|]. split; [exact Hdev|].
  repeat split; try done.
  intros p. change (page (PageCache_clear w1) p) with (page w1 p).
  rewrite Hpages. by destruct (decide (p ∈ l)).
Qed.
